(** * Mathics core: system builtins and the rule registry they rely on

    A shallow embedding of [mathics/builtin/system.py] and of the symbols of
    [mathics/core/systemsymbols.py] it uses, together with a model of the
    symbol interner, the definition store, rule registration and dispatch
    that the builtins are plugged into. *)

From stdpp Require Import base option list strings gmap relations.
From Stdlib Require Import ZArith Lia Ascii String DecimalString.

Set Warnings "-register-all".

Open Scope string_scope.
Open Scope Z_scope.

(** ** Expressions (mathics.core.atoms, mathics.core.expression) *)

(** Modelled from the spec: the Expression tree of mathics.core.atoms and
    mathics.core.expression, which system.py imports and which are not
    among the files at hand.  An expression is an atomic literal
    ([Integer], [String], [Symbol]) or a head with its ordered children.  A
    symbol is carried by its fully-qualified name. *)
Inductive Expr : Type :=
  | Integer (value : Z)
  | String (value : string)
  | Symbol (name : string)
  | Expression (head : Expr) (elements : list Expr).

(** Modelled from the spec: [Integer0] of mathics.core.atoms, the Integer
    of value 0. *)
Definition Integer0 : Expr := Integer 0.

(** mathics/core/systemsymbols.py, the entries used by system.py and by
    the pattern heads below. *)
Definition SymbolFailed : Expr := Symbol "System`$Failed".
Definition SymbolInteger : Expr := Symbol "System`Integer".
Definition SymbolRule : Expr := Symbol "System`Rule".
Definition SymbolSet : Expr := Symbol "System`Set".

(** The names that mathics/core/systemsymbols.py hands to [Symbol], in the
    order of the file (one call per line of the file). *)
Definition systemsymbols : list string :=
  ["System`$Aborted"; "System`Accuracy"; "System`All"; "System`Alternatives";
    "System`And"; "System`Append"; "System`Apply"; "System`ArcCos";
    "System`ArcSin"; "System`ArcTan"; "System`Association";
    "System`$Assumptions"; "System`Attributes"; "System`Automatic";
    "System`Blank"; "System`BlankNullSequence"; "System`BlankSequence";
    "System`Blend"; "System`Break"; "System`ByteArray"; "System`C";
    "System`Cases"; "System`Catalan"; "System`Ceiling";
    "System`ClusteringComponents"; "System`ColorConvert"; "System`ColorData";
    "System`ColorQuantize"; "System`Compile"; "System`CompiledFunction";
    "System`Complex"; "System`ComplexInfinity"; "System`Condition";
    "System`ConditionalExpression"; "System`Conjugate"; "System`ContainsOnly";
    "System`$Context"; "System`$ContextPath"; "System`Continue"; "System`Cos";
    "System`Cosh"; "System`Cot"; "System`Coth"; "System`Covariance";
    "System`D"; "System`Default"; "System`Definition"; "System`Derivative";
    "System`DirectedInfinity"; "System`Dispatch"; "System`Dot";
    "System`DownValues"; "System`E"; "System`EdgeForm"; "System`Equal";
    "System`Equivalent"; "System`EulerGamma"; "System`ExactNumberQ";
    "System`ExpandAll"; "System`Export"; "System`ExportString";
    "System`FaceForm"; "System`Factorial"; "System`$Failed";
    "System`FindClusters"; "System`Floor"; "System`Format";
    "System`FractionBox"; "System`FullForm"; "System`Function";
    "System`Gamma"; "System`Get"; "System`GoldenRatio"; "System`Graphics";
    "System`Graphics3D"; "System`Greater"; "System`GreaterEqual";
    "System`Grid"; "System`Hold"; "System`HoldForm"; "System`HoldPattern";
    "System`Hue"; "System`If"; "System`Im"; "System`Image"; "System`Implies";
    "System`In"; "System`Indeterminate"; "System`Inequality";
    "System`Infinity"; "System`Infix"; "System`InputForm"; "System`Integer";
    "System`Integrate"; "System`Left"; "System`Length"; "System`Less";
    "System`LessEqual"; "System`Key"; "System`Line"; "System`Log";
    "System`Log10"; "System`LogPlot"; "System`MachinePrecision";
    "System`MakeBoxes"; "System`Map"; "System`MapThread"; "System`MatchQ";
    "System`MatrixQ"; "System`MathMLForm"; "System`MatrixPower"; "System`Max";
    "System`$MaxPrecision"; "System`$MaxExtraPrecision"; "System`Mean";
    "System`Median"; "System`MemberQ"; "System`MessageName";
    "System`Messages"; "System`Minus"; "System`Missing"; "System`N";
    "System`NIntegrate"; "System`NValues"; "System`Needs"; "System`None";
    "System`Norm"; "System`Normal"; "System`Not"; "System`Nothing";
    "System`NumberForm"; "System`NumberQ"; "System`NumericQ"; "System`O";
    "System`OptionValue"; "System`Optional"; "System`Options";
    "System`OptionsPattern"; "System`Or"; "System`Out"; "System`OutputForm";
    "System`Overflow"; "System`OwnValues"; "System`$Packages"; "System`Part";
    "System`Pattern"; "System`PatternTest"; "System`Pi"; "System`Piecewise";
    "System`Plot"; "System`Point"; "System`Power"; "System`Polygon";
    "System`PossibleZeroQ"; "System`Precision"; "System`Quantity";
    "System`Quiet"; "System`Quotient"; "System`QuotientRemainder";
    "System`RGBColor"; "System`RandomComplex"; "System`RandomReal";
    "System`Rational"; "System`Re"; "System`Real"; "System`RealDigits";
    "System`Repeated"; "System`RepeatedNull"; "System`Return";
    "System`Reverse"; "System`Right"; "System`Round"; "System`Row";
    "System`RowBox"; "System`Rule"; "System`RuleDelayed"; "System`SameQ";
    "System`Sequence"; "System`Series"; "System`SeriesData"; "System`Set";
    "System`Sign"; "System`Simplify"; "System`Sin"; "System`Sinh";
    "System`Slot"; "System`SparseArray"; "System`Split"; "System'Sqrt";
    "System`SqrtBox"; "System`StandardDeviation"; "System`StandardForm";
    "System`StringForm"; "System`StringInsert"; "System`StringJoin";
    "System`StringPosition"; "System`StringQ"; "System`StringRiffle";
    "System`StringSplit"; "System`Style"; "System`SubValues";
    "System`SubsetQ"; "System`Subtract"; "System`SubscriptBox";
    "System`SubsuperscriptBox"; "System`SuperscriptBox"; "System`Table";
    "System`Tan"; "System`Tanh"; "System`TeXForm"; "System`Throw";
    "System`Threshold"; "System`ToString"; "System`Total";
    "System`TraditionalForm"; "System`Undefined"; "System`Unequal";
    "System`Unevaluated"; "System`UpValues"; "System`Variance"; "System`Xor" ].

(** Modelled from the spec: [ListExpression] of mathics.core.list, an
    expression whose head is the symbol List, over the given elements. *)
Definition ListExpression (elements : list Expr) : Expr :=
  Expression (Symbol "System`List") elements.

(** [isinstance(expr, Integer)] together with [expr.value]. *)
Definition as_Integer (e : Expr) : option Z :=
  match e with Integer v => Some v | _ => None end.

(** Modelled from the spec: [get_string_value] of the elements of
    mathics.core, the text of a String and None for anything else. *)
Definition get_string_value (e : Expr) : option string :=
  match e with String s => Some s | _ => None end.

(** Modelled from the spec: the name of the head of an element, which a
    typed sub-pattern such as [var_String] tests. *)
Definition get_head_name (e : Expr) : string :=
  match e with
  | Integer _ => "System`Integer"
  | String _ => "System`String"
  | Symbol _ => "System`Symbol"
  | Expression (Symbol h) _ => h
  | Expression _ _ => ""
  end.

(** First value stored under a key in a list of named values (a small
    dict, the bindings of a match). *)
Fixpoint assoc {A} (key : string) (l : list (string * A)) : option A :=
  match l with
  | [] => None
  | (k, v) :: l' => if String.eqb k key then Some v else assoc key l'
  end.

(** ** The Python side: exceptions, interpreter state, evaluation object *)

Module Py.

(** The exception classes that the code of system.py raises or catches.
    UnicodeEncodeError is a subclass of ValueError: an except clause for
    ValueError catches it too. *)
Inductive Exn : Type :=
  | AttributeError
  | ValueError
  | OverflowError
  | TypeError
  | KeyError
  | IndexError
  | UnicodeEncodeError.

(** Outcome of a Python call: a returned value or a raised exception. *)
Inductive Result (A : Type) : Type :=
  | Return (a : A)
  | Raise (e : Exn).
Arguments Return {A} a.
Arguments Raise {A} e.

(** What the builtins read from the interpreter and the process.
    [int_max_str_digits] is [None] on interpreters older than 3.11, where
    [sys.get_int_max_str_digits] and [sys.set_int_max_str_digits] do not
    exist.  [environ] is the table behind [os.environ]: from the encoded
    name of a variable to its value. *)
Record Runtime : Type := mkRuntime {
  int_max_str_digits : option Z;
  maxsize : Z;
  platform : string;
  argv : list string;
  environ : gmap string string
}.

(** A diagnostic of the message channel: owning symbol, tag, text. *)
Record Message : Type := mkMessage {
  msg_symbol : string;
  msg_tag : string;
  msg_text : string
}.

(** The [evaluation] object handed to every builtin: the interpreter
    state it runs in and the messages emitted so far (oldest first). *)
Record Evaluation : Type := mkEvaluation {
  runtime : Runtime;
  out : list Message
}.

(** Python code run against an evaluation object: it returns or raises,
    and leaves an updated evaluation object either way. *)
Definition M (A : Type) : Type := Evaluation → Result A * Evaluation.

Definition ret {A} (a : A) : M A := λ ev, (Return a, ev).
Definition raise {A} (e : Exn) : M A := λ ev, (Raise e, ev).
Definition bind {A B} (m : M A) (k : A → M B) : M B :=
  λ ev, match m ev with
        | (Return a, ev') => k a ev'
        | (Raise e, ev') => (Raise e, ev')
        end.

(** [try: body except ...:] where [handlers e] is the except clause that
    catches [e], if there is one. *)
Definition try_except {A} (body : M A) (handlers : Exn → option (M A)) : M A :=
  λ ev, match body ev with
        | (Return a, ev') => (Return a, ev')
        | (Raise e, ev') =>
            match handlers e with
            | Some h => h ev'
            | None => (Raise e, ev')
            end
        end.

Definition gets {A} (f : Runtime → A) : M A := λ ev, (Return (f (runtime ev)), ev).

(** A call that passes [given] positional arguments to a method declaring
    [required] parameters after self, none with a default: Python raises
    TypeError before the body runs when the counts differ. *)
Definition call {A} (required given : nat) (body : M A) : M A :=
  if Nat.eqb required given then body else raise TypeError.

(** [sys.get_int_max_str_digits()]. *)
Definition sys_get_int_max_str_digits : M Z :=
  λ ev, match int_max_str_digits (runtime ev) with
        | Some d => (Return d, ev)
        | None => (Raise AttributeError, ev)
        end.

(** [sys.set_int_max_str_digits(maxdigits)]: the argument is converted to
    a C int, then it has to be 0 or at least the threshold 640. *)
Definition sys_set_int_max_str_digits (maxdigits : Z) : M unit :=
  λ ev, match int_max_str_digits (runtime ev) with
        | None => (Raise AttributeError, ev)
        | Some _ =>
            if negb ((-2147483648 <=? maxdigits) && (maxdigits <=? 2147483647))
            then (Raise OverflowError, ev)
            else if (maxdigits =? 0) || (640 <=? maxdigits)
            then (Return tt,
                  mkEvaluation
                    (mkRuntime (Some maxdigits) (maxsize (runtime ev))
                       (platform (runtime ev)) (argv (runtime ev))
                       (environ (runtime ev)))
                    (out ev))
            else (Raise ValueError, ev)
        end.

(** [list.index(x)]: position of the first occurrence; None stands for
    the ValueError of an absent element. *)
Fixpoint list_index (x : string) (l : list string) : option nat :=
  match l with
  | [] => None
  | y :: l' => if String.eqb y x then Some 0%nat else S <$> list_index x l'
  end.

(** [l[i]] for a non-negative index. *)
Definition getitem {A} (l : list A) (i : nat) : M A :=
  match l !! i with
  | Some a => ret a
  | None => raise IndexError
  end.

(** A Python str is carried by the bytes of its UTF-8 form; a lone
    surrogate code point, which a str may hold, by the three bytes that the
    UTF-8 scheme gives its number (U+D800 is 237 160 128). *)

(** The key encoding of [os.environ]: [encodekey name] is the key under
    which the variables are stored, [None] where the encoding raises
    UnicodeEncodeError.  On POSIX it is
    [name.encode(filesystem encoding, 'surrogateescape')], on Windows the
    upper-cased name; which one is in force is not fixed here. *)
Class KeyEncoding : Type := encodekey : string → option string.

(** [str.encode('utf-8', 'surrogateescape')], the key encoding of POSIX
    systems whose filesystem encoding is UTF-8.  The surrogates U+DC80 to
    U+DCFF (237 178 x and 237 179 x) stand for the raw bytes 128 to 255;
    any other surrogate (237 followed by a byte from 160 on) cannot be
    encoded; every other character keeps its bytes. *)
Fixpoint utf8_surrogateescape (s : string) : option string :=
  match s with
  | EmptyString => Some EmptyString
  | String.String c rest =>
      match rest with
      | String.String c2 (String.String c3 rest') =>
          if Nat.eqb (nat_of_ascii c) 237 && Nat.leb 160 (nat_of_ascii c2)
          then
            if Nat.eqb (nat_of_ascii c2) 178
            then String.String c3 <$> utf8_surrogateescape rest'
            else if Nat.eqb (nat_of_ascii c2) 179
            then String.String (ascii_of_nat (nat_of_ascii c3 + 64))
                   <$> utf8_surrogateescape rest'
            else None
          else String.String c <$> utf8_surrogateescape rest
      | _ => String.String c <$> utf8_surrogateescape rest
      end
  end.

Definition posix_utf8 : KeyEncoding := utf8_surrogateescape.

(** [s.replace(old, new)] for a one-character [old]: every occurrence of
    the character is replaced, left to right. *)
Fixpoint str_replace (old : ascii) (new s : string) : string :=
  match s with
  | EmptyString => EmptyString
  | String.String c rest =>
      if Ascii.eqb c old then new +:+ str_replace old new rest
      else String.String c (str_replace old new rest)
  end.

(** A Python object as a traversal by type sees it: one of the five
    built-in containers, with the ids of its items in iteration order (a
    dict holds key and value ids), or an object of any other type. *)
Inductive Object : Type :=
  | PyTuple (items : list positive)
  | PyList (items : list positive)
  | PyDict (items : list (positive * positive))
  | PySet (items : list positive)
  | PyFrozenset (items : list positive)
  | PyOther.

(** The objects of the interpreter by [id(obj)].  An id without an entry
    is an object of another type.  [getsizeof obj] is [None] for an object
    that reports no size, where [sys.getsizeof(obj, default)] gives the
    default; [getsizeof_int0] is [sys.getsizeof(0)], [None] where that
    call raises TypeError. *)
Record Heap : Type := mkHeap {
  objects : gmap positive Object;
  getsizeof : positive → option Z;
  getsizeof_int0 : option Z
}.

End Py.

#[global] Instance Py_ret : MRet Py.M := @Py.ret.
#[global] Instance Py_bind : MBind Py.M := λ A B k m, Py.bind m k.

(** ** The registry the builtins are plugged into *)

(** The engine that system.py plugs into (mathics.core.symbols,
    mathics.core.definitions, mathics.core.rules, mathics.core.evaluation
    and mathics.core.builtin) is not among the files at hand; this module
    follows the spec for it. *)

Module Core.
Import Py.

(** *** Symbol interner *)

(** Modelled from the spec: the Symbol Interner of mathics.core.symbols,
    whose class [Symbol] systemsymbols.py calls once per name.  The
    source of that class is not part of the files at hand.  The interner
    maps a fully-qualified name to a symbol identity: a name seen before
    gets the identity it was given, a new name gets the next free one. *)
Record Interner : Type := mkInterner {
  table : gmap string positive;
  next_id : positive
}.

Definition empty_interner : Interner := mkInterner ∅ 1%positive.

Definition intern (name : string) (I : Interner) : positive * Interner :=
  match table I !! name with
  | Some id => (id, I)
  | None => (next_id I,
             mkInterner (<[name := next_id I]> (table I)) (Pos.succ (next_id I)))
  end.

(** A session: the names interned so far, in the order of the calls. *)
Definition intern_all (names : list string) (I : Interner) : Interner :=
  foldl (λ I n, (intern n I).2) I names.

(** The invariant of the interner: identities handed out are below the
    next free one, and no identity is shared by two names. *)
Definition interner_wf (I : Interner) : Prop :=
  (∀ n id, table I !! n = Some id → (id < next_id I)%positive) ∧
  (∀ n m id, table I !! n = Some id → table I !! m = Some id → n = m).

(** *** Definition store *)

(** Modelled from the spec: the attribute enumeration of
    mathics.core.attributes (system.py imports its [A_CONSTANT]). *)
Inductive Attribute : Type :=
  | A_CONSTANT
  | A_FLAT
  | A_HOLD_ALL
  | A_HOLD_FIRST
  | A_HOLD_REST
  | A_ORDERLESS
  | A_PROTECTED.

#[global] Instance Attribute_eq_dec : EqDecision Attribute.
Proof. solve_decision. Defined.

#[global] Instance Attribute_countable : Countable Attribute.
Proof.
  refine (inj_countable'
    (λ a, match a with
          | A_CONSTANT => 0 | A_FLAT => 1 | A_HOLD_ALL => 2
          | A_HOLD_FIRST => 3 | A_HOLD_REST => 4 | A_ORDERLESS => 5
          | A_PROTECTED => 6
          end%nat)
    (λ n, match n with
          | 0 => A_CONSTANT | 1 => A_FLAT | 2 => A_HOLD_ALL
          | 3 => A_HOLD_FIRST | 4 => A_HOLD_REST | 5 => A_ORDERLESS
          | _ => A_PROTECTED
          end%nat) _).
  by intros [].
Defined.

(** Modelled from the spec: the four position classes in which the rules
    of a symbol are consulted. *)
Inductive Position : Type := Own | Down | Sub | Up.

#[global] Instance Position_eq_dec : EqDecision Position.
Proof. solve_decision. Defined.

(** Modelled from the spec: the outcome of a dispatch. *)
Inductive RewriteResult : Type :=
  | Rewritten (new_expression : Expr)
  | Unchanged
  | Failed (message : Message).

(** Modelled from the spec: the Message sink, [emit] appends a
    diagnostic and does not alter control flow. *)
Definition emit (m : Message) : M unit :=
  λ ev, (Return tt, mkEvaluation (runtime ev) (out ev ++ [m])).

(** Head-most symbol of an expression, if it has one. *)
Fixpoint lookup_name (e : Expr) : option string :=
  match e with
  | Symbol n => Some n
  | Expression h _ => lookup_name h
  | _ => None
  end.

(** Modelled from the spec (dispatch, step 1): a bare symbol consults its
    own-values, a symbol that is the head its down-values, a symbol that
    heads the head its sub-values, and a symbol found elsewhere its
    up-values. *)
Definition call_position (symbol : string) (e : Expr) : Position :=
  match e with
  | Symbol n => if String.eqb n symbol then Own else Up
  | Expression (Symbol n) _ => if String.eqb n symbol then Down else Up
  | Expression h _ =>
      if bool_decide (lookup_name h = Some symbol) then Sub else Up
  | _ => Up
  end.

(** Modelled from the spec: how the evaluation loop stopped, at a
    fixpoint or at the bound on the number of rewrite steps. *)
Inductive Status : Type := Stable | BoundedStop.

(** Modelled from the spec: the warning reported with a Bounded-Stop. *)
Definition bounded_stop_warning : Message :=
  mkMessage "System`$IterationLimit" "itlim" "Iteration limit exceeded.".

Section Registry.
(** The pattern matcher is a capability the dispatcher calls into; so
    is the classification of a pattern by head position. *)
Context {Pattern Bindings : Type}.
Context (pmatch : Pattern → Expr → option Bindings).
Context (pattern_position : string → Pattern → Position).
Context (validate : Pattern → bool).

(** Modelled from the spec: a rule is a pattern and a handler; the
    handler takes the bindings and the evaluation context. *)
Record Rule : Type := mkRule {
  pattern : Pattern;
  handler : Bindings → M RewriteResult
}.

(** Modelled from the spec: the Definition record of a symbol,
    attributes and four ordered rule lists. *)
Record SymbolDefinition : Type := mkDefinition {
  attributes : gset Attribute;
  ownvalues : list Rule;
  downvalues : list Rule;
  subvalues : list Rule;
  upvalues : list Rule
}.

Definition empty_definition : SymbolDefinition := mkDefinition ∅ [] [] [] [].

Definition rules_at (pos : Position) (d : SymbolDefinition) : list Rule :=
  match pos with
  | Own => ownvalues d
  | Down => downvalues d
  | Sub => subvalues d
  | Up => upvalues d
  end.

Definition append_rule (pos : Position) (r : Rule) (d : SymbolDefinition)
  : SymbolDefinition :=
  match pos with
  | Own => mkDefinition (attributes d) (ownvalues d ++ [r]) (downvalues d)
             (subvalues d) (upvalues d)
  | Down => mkDefinition (attributes d) (ownvalues d) (downvalues d ++ [r])
              (subvalues d) (upvalues d)
  | Sub => mkDefinition (attributes d) (ownvalues d) (downvalues d)
             (subvalues d ++ [r]) (upvalues d)
  | Up => mkDefinition (attributes d) (ownvalues d) (downvalues d)
            (subvalues d) (upvalues d ++ [r])
  end.

(** Modelled from the spec: the Definition Store, at most one
    definition per symbol. *)
Definition get_or_create (symbol : string) (D : gmap string SymbolDefinition)
  : SymbolDefinition * gmap string SymbolDefinition :=
  match D !! symbol with
  | Some d => (d, D)
  | None => (empty_definition, <[symbol := empty_definition]> D)
  end.

Definition set_attributes (symbol : string) (attrs : gset Attribute)
    (D : gmap string SymbolDefinition) : gmap string SymbolDefinition :=
  let d := (get_or_create symbol D).1 in
  <[symbol := mkDefinition attrs (ownvalues d) (downvalues d)
                (subvalues d) (upvalues d)]> D.

Definition get_attributes (symbol : string) (D : gmap string SymbolDefinition)
  : gset Attribute :=
  attributes (get_or_create symbol D).1.

(** Modelled from the spec: [clear] removes all rules and resets the
    attributes. *)
Definition clear (symbol : string) (D : gmap string SymbolDefinition)
  : gmap string SymbolDefinition :=
  <[symbol := empty_definition]> D.

(** Modelled from the spec: registration appends the rule to the list
    chosen by the classification of its pattern; a pattern that does
    not validate is rejected. *)
Definition register (symbol : string) (p : Pattern)
    (h : Bindings → M RewriteResult) (D : gmap string SymbolDefinition)
  : option (gmap string SymbolDefinition) :=
  if validate p
  then Some (<[symbol := append_rule (pattern_position symbol p) (mkRule p h)
                           (get_or_create symbol D).1]> D)
  else None.

(** Registrations made one after the other, first to last. *)
Fixpoint register_all
    (rs : list (string * Pattern * (Bindings → M RewriteResult)))
    (D : gmap string SymbolDefinition) : option (gmap string SymbolDefinition) :=
  match rs with
  | [] => Some D
  | (symbol, p, h) :: rs' =>
      match register symbol p h D with
      | Some D' => register_all rs' D'
      | None => None
      end
  end.

(** Modelled from the spec: invoking the handler of the matching rule.
    Its return value is the dispatch result; a failure it signals is
    surfaced through the message channel. *)
Definition invoke (r : Rule) (b : Bindings) : M RewriteResult :=
  res ← handler r b;
  match res with
  | Failed m => emit m;; mret (Failed m)
  | _ => mret res
  end.

(** Modelled from the spec (dispatch, steps 2 to 4): walk the list in
    order, the first rule that matches decides, Unchanged if none does. *)
Fixpoint walk (rules : list Rule) (e : Expr) : M RewriteResult :=
  match rules with
  | [] => mret Unchanged
  | r :: rest =>
      match pmatch (pattern r) e with
      | Some b => invoke r b
      | None => walk rest e
      end
  end.

(** The rules consulted when [symbol] is dispatched on [e]. *)
Definition applicable (D : gmap string SymbolDefinition) (symbol : string)
    (e : Expr) : list Rule :=
  rules_at (call_position symbol e) (default empty_definition (D !! symbol)).

(** Modelled from the spec: the Dispatch Engine. *)
Definition dispatch (D : gmap string SymbolDefinition) (symbol : string)
    (e : Expr) : M RewriteResult :=
  walk (applicable D symbol e) e.

(** Modelled from the spec: the child positions that the attributes of
    the head pass through unevaluated. *)
Definition held (attrs : gset Attribute) (i : nat) : bool :=
  bool_decide (A_HOLD_ALL ∈ attrs)
  || (bool_decide (A_HOLD_FIRST ∈ attrs) && Nat.eqb i 0)
  || (bool_decide (A_HOLD_REST ∈ attrs) && negb (Nat.eqb i 0)).

(** Modelled from the spec: the symbols that have a position in [e],
    the head-most symbol (own, down or sub), then the symbols of the
    elements (up). *)
Definition positions (e : Expr) : list string :=
  match e with
  | Symbol n => [n]
  | Expression h args => option_list (lookup_name h) ++ omap lookup_name args
  | _ => []
  end.

(** Modelled from the spec: one pass over the applicable positions; the
    first dispatch that is not Unchanged decides. *)
Fixpoint full_pass (D : gmap string SymbolDefinition) (symbols : list string)
    (e : Expr) : M RewriteResult :=
  match symbols with
  | [] => mret Unchanged
  | s :: rest =>
      r ← dispatch D s e;
      match r with
      | Unchanged => full_pass D rest e
      | _ => mret r
      end
  end.

(** The children from position [i] on, each rewritten by [f] unless
    its position is held. *)
Fixpoint evaluate_children (attrs : gset Attribute) (f : Expr → M Expr)
    (i : nat) (children : list Expr) : M (list Expr) :=
  match children with
  | [] => mret []
  | c :: rest =>
      c' ← (if held attrs i then mret c else f c);
      rest' ← evaluate_children attrs f (S i) rest;
      mret (c' :: rest')
  end.

(** Modelled from the spec: the Evaluation Loop.  Children first,
    then passes over the positions; a rewrite restarts from the top; a
    pass that leaves the expression Unchanged at every position makes
    it Stable; when [steps] is used up the last-known expression is
    returned with a warning. *)
Fixpoint evaluate (steps : nat) (D : gmap string SymbolDefinition) (e : Expr)
  : M (Expr * Status) :=
  match steps with
  | O => emit bounded_stop_warning;; mret (e, BoundedStop)
  | S n =>
      e1 ← match e with
           | Expression h args =>
               let attrs := match lookup_name h with
                            | Some s => get_attributes s D
                            | None => ∅
                            end in
               args' ← evaluate_children attrs
                         (λ c, r ← evaluate n D c; mret r.1) 0%nat args;
               mret (Expression h args')
           | _ => mret e
           end;
      r ← full_pass D (positions e1) e1;
      match r with
      | Rewritten e2 => evaluate n D e2
      | Unchanged => mret (e1, Stable)
      | Failed _ => mret (e1, Stable)
      end
  end.

End Registry.

End Core.

(** ** mathics/builtin/system.py *)

Module System.
Import Py Core.

(** Modelled from the spec: the formatter of expressions is a
    collaborator outside these files, and the spec leaves it out of scope.
    It is taken as an interface: [format_expression e] is the text that
    the formatter gives a symbol or a compound expression. *)
Class Formatter : Type := format_expression : Expr → string.

(** Modelled from the spec: the formatted text of a message argument.  An
    Integer is shown by its decimal digits and a String by its characters;
    anything else is left to the formatter. *)
Definition format_output `{!Formatter} (e : Expr) : string :=
  match e with
  | Integer v => NilZero.string_of_int (Z.to_int v)
  | String s => s
  | _ => format_expression e
  end.

(** Filling the numbered slots of a template: a digit between two
    backquotes stands for the argument of that number. *)
Fixpoint string_form (template : string) (args : list string) : string :=
  match template with
  | EmptyString => EmptyString
  | String.String c rest =>
      match rest with
      | String.String d (String.String c' rest') =>
          let n := Ascii.nat_of_ascii d in
          if Ascii.eqb c "`"%char && Ascii.eqb c' "`"%char
             && Nat.leb 49 n && Nat.leb n 57
          then match args !! (n - 49)%nat with
               | Some a => a +:+ string_form rest' args
               | None => String.String c (string_form rest args)
               end
          else String.String c (string_form rest args)
      | _ => String.String c (string_form rest args)
      end
  end.

(** The [messages] attributes of the classes of this file, by the name
    of the owning symbol: what [evaluation.message] finds in the
    definitions. *)
Definition messages (symbol : string) : list (string * string) :=
  if String.eqb symbol "$MaxLengthIntStringConversion"
  then [("inv", "`1` is not 0 or an Integer value >640.")]
  else [].

(** Modelled from the spec: [evaluation.message(symbol, tag, args)] of
    mathics.core.evaluation, which is outside these files.  It fills the
    template of the tag with the formatted arguments and appends the
    message to the sink. *)
Definition message `{!Formatter} (symbol tag : string) (args : list Expr)
  : M unit :=
  let template :=
    match assoc tag (messages symbol) with
    | Some text => text
    | None => "Message " +:+ symbol +:+ "::" +:+ tag +:+ " not found."
    end in
  emit (mkMessage symbol tag (string_form template (format_output <$> args))).

(** class MaxLengthIntStringConversion(Predefined) *)
Module MaxLengthIntStringConversion.

Definition attributes : gset Attribute := {[ A_CONSTANT ]}.
Definition name : string := "$MaxLengthIntStringConversion".

Definition evaluate : M Expr :=
  try_except
    (d ← sys_get_int_max_str_digits; mret (Integer d))
    (λ e, match e with
          | AttributeError => Some (mret Integer0)
          | _ => None
          end).

(** The value of the inner computation is [Some r] where the Python
    code returns [r] from inside the if, and [None] where control
    falls through to the two last statements. *)
Definition eval_set `{!Formatter} (expr : Expr) : M Expr :=
  returned ←
    match as_Integer expr with
    | Some value =>
        try_except
          (sys_set_int_max_str_digits value;;
           r ← evaluate;
           mret (Some r))
          (λ e, match e with
                | AttributeError =>
                    Some ((if negb (value =? 0) && (value <? 640)
                           then message "$MaxLengthIntStringConversion" "inv" [expr]
                           else mret tt);;
                          mret (Some Integer0))
                | ValueError | UnicodeEncodeError => Some (mret None)
                | _ => None
                end)
    | None => mret None
    end;
  match returned with
  | Some r => mret r
  | None =>
      message "$MaxLengthIntStringConversion" "inv" [expr];;
      evaluate
  end.

(** [return self.eval_set(expr)]: one argument for the two parameters
    [expr] and [evaluation]. *)
Definition eval_setdelayed `{!Formatter} (expr : Expr) : M Expr :=
  call 2 1 (eval_set expr).

End MaxLengthIntStringConversion.

(** class Environment(Builtin) *)
Module Environment.

(** [os.environ] looks a name up under its encoded key, so both
    [env_var not in os.environ] and [os.environ[env_var]] start by
    encoding [env_var]: a name that is no str raises TypeError there and a
    str that cannot be encoded raises UnicodeEncodeError.  [environ] maps
    the encoded keys to the values as [os.environ] gives them. *)
Definition eval `{!KeyEncoding} (var : Expr) : M Expr :=
  match get_string_value var with
  | Some env_var =>
      env ← gets environ;
      match encodekey env_var with
      | Some key =>
          if negb (bool_decide (is_Some (env !! key)))
          then mret SymbolFailed
          else match env !! key with
               | Some v => mret (String v)
               | None => raise KeyError
               end
      | None => raise UnicodeEncodeError
      end
  | None => raise TypeError
  end.

End Environment.

(** class Machine(Predefined) *)
Module Machine.
Definition name : string := "$Machine".
Definition evaluate : M Expr := p ← gets platform; mret (String p).
End Machine.

(** class ScriptCommandLine(Predefined) *)
Module ScriptCommandLine.

Definition name : string := "$ScriptCommandLine".

(** Modelled from the spec: [to_mathics_list] of
    mathics.core.convert.expression, which is not among the files at
    hand: the list expression of the elements, each converted by
    [elements_conversion_fn]. *)
Definition to_mathics_list {A} (elements_conversion_fn : A → Expr)
    (elements : list A) : Expr :=
  ListExpression (elements_conversion_fn <$> elements).

Definition evaluate : M Expr :=
  args ← gets argv;
  match list_index "--" args with
  | None => mret (ListExpression [])
  | Some dash_index =>
      scriptname ← (if Nat.eqb dash_index 0 then mret ""
                    else getitem args (dash_index - 1)%nat);
      let parms := ([scriptname] ++ drop (dash_index + 1)%nat args)%list in
      mret (to_mathics_list String parms)
  end.

End ScriptCommandLine.

(** class SystemID(Predefined) *)
Module SystemID.
Definition name : string := "$SystemID".
Definition evaluate : M Expr := p ← gets platform; mret (String p).
End SystemID.

(** class SystemWordLength(Predefined) *)
Module SystemWordLength.

Definition name : string := "$SystemWordLength".

(** The while loop, run for at most [fuel] tests of its condition;
    [None] when it has not left the loop by then. *)
Fixpoint halving (fuel : nat) (maxsize size : Z) : option Z :=
  match fuel with
  | O => None
  | S fuel' =>
      if negb (maxsize >? 2 ^ size)
      then halving fuel' maxsize (Z.shiftr size 1)
      else Some size
  end.

Definition evaluate (fuel : nat) (ev : Evaluation)
  : option (Result Expr * Evaluation) :=
  size ← halving fuel (maxsize (runtime ev)) 128;
  Some (Return (Integer (Z.shiftl size 1)), ev).

End SystemWordLength.

(** [IntegerM1] of mathics.core.atoms, the Integer of value -1. *)
Definition IntegerM1 : Expr := Integer (-1).

(** class CommandLine(Predefined) *)
Module CommandLine.
Definition name : string := "$CommandLine".
Definition evaluate : M Expr :=
  args ← gets argv;
  mret (ListExpression (String <$> args)).
End CommandLine.

(** class Version(Predefined).  [version_string] is imported from the
    mathics package and is taken as an argument. *)
Module Version.
Definition name : string := "$Version".
Definition evaluate (version_string : string) : M Expr :=
  mret (String (str_replace "010"%char " " version_string)).
End Version.

(** class MemoryInUse(Builtin) *)
Module MemoryInUse.

(** The [handlers] table applied to an object: the items that the handler
    of the first matching type iterates over, [None] when no type of the
    table matches. *)
Definition handled (o : Object) : option (list positive) :=
  match o with
  | PyTuple items => Some items
  | PyList items => Some items
  | PyDict items => Some (flat_map (λ kv, [kv.1; kv.2]) items)
  | PySet items => Some items
  | PyFrozenset items => Some items
  | PyOther => None
  end.

(** [sum(map(f, items))] for an [f] that reads and updates [seen]: the
    items are visited left to right. *)
Fixpoint sum_map (f : positive → gset positive → option (Z * gset positive))
    (items : list positive) (seen : gset positive)
  : option (Z * gset positive) :=
  match items with
  | [] => Some (0, seen)
  | obj :: rest =>
      match f obj seen with
      | Some (s, seen1) =>
          match sum_map f rest seen1 with
          | Some (total, seen2) => Some (s + total, seen2)
          | None => None
          end
      | None => None
      end
  end.

(** The inner function [sizeof], with the set [seen] passed along and at
    most [fuel] nested calls; [None] when the fuel does not suffice. *)
Fixpoint sizeof (fuel : nat) (heap : Heap) (default_size : Z) (obj : positive)
    (seen : gset positive) : option (Z * gset positive) :=
  match fuel with
  | O => None
  | S fuel' =>
      if bool_decide (obj ∈ seen) then Some (0, seen)
      else
        let seen := seen ∪ {[ obj ]} in
        let s := default default_size (getsizeof heap obj) in
        match objects heap !! obj ≫= handled with
        | Some items =>
            match sum_map (sizeof fuel' heap default_size) items seen with
            | Some (total, seen') => Some (s + total, seen')
            | None => None
            end
        | None => Some (s, seen)
        end
  end.

(** [eval_0]: [definitions] is the id of [evaluation.definitions]. *)
Definition eval_0 (fuel : nat) (heap : Heap) (definitions : positive)
  : option Expr :=
  match getsizeof_int0 heap with
  | None => Some IntegerM1
  | Some default_size =>
      match sizeof fuel heap default_size definitions ∅ with
      | Some (total, _) => Some (Integer total)
      | None => None
      end
  end.

(** An item of a container: what [sizeof] descends into. *)
Definition item_of (heap : Heap) (x y : positive) : Prop :=
  ∃ items, objects heap !! x ≫= handled = Some items ∧ y ∈ items.

(** The size that [sizeof] counts for one object. *)
Definition size_of (heap : Heap) (default_size : Z) (obj : positive) : Z :=
  default default_size (getsizeof heap obj).

(** The sizes of the objects of a set, added up. *)
Definition total_size (heap : Heap) (default_size : Z) (X : gset positive) : Z :=
  set_fold (λ obj acc, size_of heap default_size obj + acc) 0 X.

(** What a traversal of [roots] that starts with [seen] and ends with
    [seen'] and [total] has done: the objects it added were not seen
    before, [total] is the sum of their sizes, each is reached from a
    root, the roots are seen, and the items of every added object are
    seen. *)
Definition counted (heap : Heap) (default_size : Z) (roots : list positive)
    (seen seen' : gset positive) (total : Z) : Prop :=
  ∃ new : gset positive,
    seen' = seen ∪ new ∧ new ## seen ∧
    total = total_size heap default_size new ∧
    (∀ y, y ∈ roots → y ∈ seen') ∧
    (∀ x, x ∈ new → ∃ y, y ∈ roots ∧ rtc (item_of heap) y x) ∧
    (∀ x y, x ∈ new → item_of heap x y → y ∈ seen').

End MemoryInUse.

(** *** The docstring patterns and the definitions of the builtins *)

(** Modelled from the spec: the pattern descriptors, for the shapes that
    the docstrings of the classes above use: a literal symbol, a named
    blank with or without a head ([expr_], [var_String]) and a head
    applied to element patterns. *)
Inductive Pattern : Type :=
  | PSymbol (name : string)
  | PBlank (var : string) (head : option string)
  | PExpression (head : Pattern) (elements : list Pattern).

(** Modelled from the spec: the Pattern Matcher capability, for the
    shapes above.  It returns the bindings of the named blanks, left to
    right, or None. *)
Fixpoint pmatch (p : Pattern) (e : Expr) : option (list (string * Expr)) :=
  match p with
  | PSymbol n =>
      match e with
      | Symbol m => if String.eqb n m then Some [] else None
      | _ => None
      end
  | PBlank x None => Some [(x, e)]
  | PBlank x (Some h) =>
      if String.eqb (get_head_name e) h then Some [(x, e)] else None
  | PExpression ph pargs =>
      match e with
      | Expression eh eargs =>
          bh ← pmatch ph eh;
          bs ← (fix elements (ps : list Pattern) (es : list Expr)
                  : option (list (string * Expr)) :=
                  match ps, es with
                  | [], [] => Some []
                  | q :: ps', a :: es' =>
                      b ← pmatch q a;
                      bs ← elements ps' es';
                      Some (b ++ bs)%list
                  | _, _ => None
                  end) pargs eargs;
          Some (bh ++ bs)%list
      | _ => None
      end
  end.

Fixpoint pattern_lookup_name (p : Pattern) : option string :=
  match p with
  | PSymbol n => Some n
  | PExpression h _ => pattern_lookup_name h
  | PBlank _ _ => None
  end.

(** The position class of a pattern for the symbol it is attached to,
    as [call_position] classifies an expression. *)
Definition pattern_position (symbol : string) (p : Pattern) : Position :=
  match p with
  | PSymbol n => if String.eqb n symbol then Own else Up
  | PExpression (PSymbol n) _ => if String.eqb n symbol then Down else Up
  | PExpression h _ =>
      if bool_decide (pattern_lookup_name h = Some symbol) then Sub else Up
  | _ => Up
  end.

(** None of these shapes refers to a guard predicate. *)
Definition validate (p : Pattern) : bool := true.

(** Modelled from the spec: a method with no pattern variable
    ([evaluate] of a Predefined) as a handler; the expression it returns
    is the replacement. *)
Definition handler0 (f : M Expr) : list (string * Expr) → M RewriteResult :=
  λ _, r ← f; mret (Rewritten r).

(** Modelled from the spec: a method of one pattern variable as a
    handler; it is called with the binding of [var] and the evaluation
    object, and the expression it returns is the replacement. *)
Definition handler1 (var : string) (f : Expr → M Expr)
  : list (string * Expr) → M RewriteResult :=
  λ b, match assoc var b with
       | Some e => r ← f e; mret (Rewritten r)
       | None => raise TypeError
       end.

(** Modelled from the spec: what the classes contribute to the
    definitions, each method under the pattern of its docstring (names
    in the System context), a Predefined under its bare symbol. *)
Definition contributions `{!Formatter} `{!KeyEncoding}
  : list (string * Pattern * (list (string * Expr) → M RewriteResult)) :=
  [ ("System`$MaxLengthIntStringConversion",
     PSymbol "System`$MaxLengthIntStringConversion",
     handler0 MaxLengthIntStringConversion.evaluate);
    ("System`$MaxLengthIntStringConversion",
     PExpression (PSymbol "System`Set")
       [PSymbol "System`$MaxLengthIntStringConversion"; PBlank "expr" None],
     handler1 "expr" MaxLengthIntStringConversion.eval_set);
    ("System`$MaxLengthIntStringConversion",
     PExpression (PSymbol "System`SetDelayed")
       [PSymbol "System`$MaxLengthIntStringConversion"; PBlank "expr" None],
     handler1 "expr" MaxLengthIntStringConversion.eval_setdelayed);
    ("System`Environment",
     PExpression (PSymbol "System`Environment")
       [PBlank "var" (Some "System`String")],
     handler1 "var" Environment.eval);
    ("System`$Machine", PSymbol "System`$Machine", handler0 Machine.evaluate);
    ("System`$ScriptCommandLine", PSymbol "System`$ScriptCommandLine",
     handler0 ScriptCommandLine.evaluate);
    ("System`$SystemID", PSymbol "System`$SystemID", handler0 SystemID.evaluate) ].

Definition builtins `{!Formatter} `{!KeyEncoding}
  : gmap string (SymbolDefinition (Pattern := Pattern)) :=
  set_attributes "System`$MaxLengthIntStringConversion"
    MaxLengthIntStringConversion.attributes
    (default ∅ (register_all pattern_position validate contributions ∅)).

End System.

(** ** Sessions and registrations used in the examples *)

Module Examples.
Import Py Core System.

(** A 64-bit Linux session running a script. *)
Definition session : Evaluation :=
  mkEvaluation
    (mkRuntime (Some 4300) (2 ^ 63 - 1) "linux"
       ["mathics"; "script.m"; "--"; "a"; "b"] {[ "HOME" := "/root" ]})
    [].

(** An interactive session: no separator in the argument vector. *)
Definition interactive : Evaluation :=
  mkEvaluation (mkRuntime None (2 ^ 31 - 1) "win32" ["mathics"] ∅) [].

(** A session whose argument vector starts with the separator. *)
Definition bare_separator : Evaluation :=
  mkEvaluation (mkRuntime (Some 0) (2 ^ 63 - 1) "darwin" ["--"; "a"] ∅) [].

(** The scenario of the spec: Foo[x_Integer] with a handler that
    doubles x, and a catch-all Foo[x_] registered after it. *)
Definition Foo_Integer : Pattern :=
  PExpression (PSymbol "Global`Foo") [PBlank "x" (Some "System`Integer")].

Definition Foo_any : Pattern :=
  PExpression (PSymbol "Global`Foo") [PBlank "x" None].

Definition doubles : list (string * Expr) → M RewriteResult :=
  λ b, match assoc "x" b with
       | Some (Integer v) => mret (Rewritten (Integer (2 * v)))
       | _ => mret Unchanged
       end.

Definition gives_up : list (string * Expr) → M RewriteResult :=
  λ _, mret (Rewritten SymbolFailed).

Definition Foo (e : Expr) : Expr := Expression (Symbol "Global`Foo") [e].

Definition store1 : gmap string (SymbolDefinition (Pattern := Pattern)) :=
  default ∅ (register pattern_position validate "Global`Foo" Foo_Integer doubles ∅).

Definition store2 : gmap string (SymbolDefinition (Pattern := Pattern)) :=
  default ∅ (register pattern_position validate "Global`Foo" Foo_any gives_up store1).

(** A formatter for the examples: it shows every symbol and every
    compound expression as an ellipsis. *)
Definition formatter : Formatter := λ _, "...".

(** The str that holds the one code point U+D800, a lone surrogate. *)
Definition lone_surrogate : string :=
  String.String "237"%char
    (String.String "160"%char (String.String "128"%char EmptyString)).

(** Interpreters whose sys.maxsize is 1 and 2. *)
Definition maxsize_one : Evaluation :=
  mkEvaluation (mkRuntime None 1 "toy" [] ∅) [].

Definition maxsize_two : Evaluation :=
  mkEvaluation (mkRuntime None 2 "toy" [] ∅) [].

(** A version text of two lines. *)
Definition version_string : string :=
  "Mathics 6.0.0" +:+ String.String "010"%char "on CPython 3.11.4".

(** A heap with sharing and a cycle: the list 1 holds the dict 2 twice and
    the tuple 3; the dict maps 4 to the list 1 itself; 5 is outside. *)
Definition heap : Heap :=
  mkHeap
    (<[1%positive := PyList [2; 2; 3]%positive]>
       (<[2%positive := PyDict [(4, 1)]%positive]>
          (<[3%positive := PyTuple []]>
             (<[5%positive := PyTuple [1%positive]]> ∅))))
    (λ obj, if Pos.eqb obj 4 then None else Some (Z.pos obj * 10))
    (Some 28).

End Examples.

(** * Properties *)

Import Py Core System.

Section Facts.
(** The formatter and the key encoding are any. *)
Context {formatter : Formatter} {key_encoding : KeyEncoding}.

(** ** Running Python code step by step *)

Lemma bind_return {A B} (m : M A) (k : A → M B) ev a ev' :
  m ev = (Return a, ev') → (m ≫= k) ev = k a ev'.
Proof. intros H. unfold mbind, Py_bind, bind. by rewrite H. Qed.

Lemma bind_raise {A B} (m : M A) (k : A → M B) ev x ev' :
  m ev = (Raise x, ev') → (m ≫= k) ev = (Raise x, ev').
Proof. intros H. unfold mbind, Py_bind, bind. by rewrite H. Qed.

Lemma mret_run {A} (a : A) ev : mret (M := M) a ev = (Return a, ev).
Proof. reflexivity. Qed.

(** The current value of the constant: the digit limit of the interpreter,
    0 where the interpreter has none. *)
Lemma MaxLength_evaluate_run ev :
  MaxLengthIntStringConversion.evaluate ev =
    (Return (Integer (default 0 (int_max_str_digits (runtime ev)))), ev).
Proof.
  unfold MaxLengthIntStringConversion.evaluate, try_except, mbind, Py_bind,
    bind, sys_get_int_max_str_digits.
  by destruct (int_max_str_digits (runtime ev)).
Qed.

(** ** $MaxLengthIntStringConversion *)

(** The message that [eval_set] emits for the Integer 10. *)
Lemma message_inv_10_run (ev : Evaluation) :
  message "$MaxLengthIntStringConversion" "inv" [Integer 10] ev =
    (Return tt,
     mkEvaluation (runtime ev)
       (out ev ++ [mkMessage "$MaxLengthIntStringConversion" "inv"
                     "10 is not 0 or an Integer value >640."])).
Proof.
  unfold message, emit.
  assert (Htext :
    string_form
      match assoc "inv" (messages "$MaxLengthIntStringConversion") with
      | Some text => text
      | None => "Message " +:+ "$MaxLengthIntStringConversion" +:+ "::"
                +:+ "inv" +:+ " not found."
      end (format_output <$> [Integer 10])
    = "10 is not 0 or an Integer value >640.") by (vm_compute; reflexivity).
  by rewrite Htext.
Qed.

(** The run of [eval_set] on the Integer 10, on either kind of
    interpreter. *)
Lemma eval_set_10_run (ev : Evaluation) :
  MaxLengthIntStringConversion.eval_set (Integer 10) ev =
    (Return (Integer (default 0 (int_max_str_digits (runtime ev)))),
     mkEvaluation (runtime ev)
       (out ev ++ [mkMessage "$MaxLengthIntStringConversion" "inv"
                     "10 is not 0 or an Integer value >640."])).
Proof.
  unfold MaxLengthIntStringConversion.eval_set, try_except, mbind, Py_bind, bind,
    sys_set_int_max_str_digits, as_Integer.
  destruct (int_max_str_digits (runtime ev)) as [d|] eqn:Hd;
    cbn [negb andb orb Z.leb Z.eqb Z.ltb Z.compare Pos.compare Pos.compare_cont].
  - unfold mret, Py_ret, ret.
    rewrite message_inv_10_run, MaxLength_evaluate_run.
    cbn [runtime]. by rewrite Hd.
  - rewrite message_inv_10_run. reflexivity.
Qed.

(** Looking a symbol up in [builtins]: the store is computed with the
    handlers kept abstract. *)
Ltac lookup_builtin :=
  unfold builtins, contributions;
  generalize (handler0 MaxLengthIntStringConversion.evaluate)
    (handler1 "expr" MaxLengthIntStringConversion.eval_set)
    (handler1 "expr" MaxLengthIntStringConversion.eval_setdelayed)
    (handler1 "var" Environment.eval) (handler0 Machine.evaluate)
    (handler0 ScriptCommandLine.evaluate) (handler0 SystemID.evaluate);
  intros; vm_compute; reflexivity.

(** The definition that the registrations build for the constant. *)
Lemma builtins_MaxLength :
  builtins !! "System`$MaxLengthIntStringConversion" =
    Some (mkDefinition MaxLengthIntStringConversion.attributes
      [mkRule (PSymbol "System`$MaxLengthIntStringConversion")
         (handler0 MaxLengthIntStringConversion.evaluate)]
      [] []
      [mkRule (PExpression (PSymbol "System`Set")
         [PSymbol "System`$MaxLengthIntStringConversion"; PBlank "expr" None])
        (handler1 "expr" MaxLengthIntStringConversion.eval_set);
       mkRule (PExpression (PSymbol "System`SetDelayed")
         [PSymbol "System`$MaxLengthIntStringConversion"; PBlank "expr" None])
        (handler1 "expr" MaxLengthIntStringConversion.eval_setdelayed)]).
Proof.
  lookup_builtin.
Qed.

(** C1: assigning 10 emits the one message "10 is not 0 or an Integer value
    >640." and returns, as a normal return, the value the constant had;
    the interpreter state is left as it was, the code that follows runs,
    and the dispatch of Set[$MaxLengthIntStringConversion, 10] gives that
    value as the replacement. *)
Theorem set_invalid_value_reports_and_keeps_value (ev : Evaluation) :
  let ev' := mkEvaluation (runtime ev)
               (out ev ++ [mkMessage "$MaxLengthIntStringConversion" "inv"
                             "10 is not 0 or an Integer value >640."]) in
  ∃ current,
    MaxLengthIntStringConversion.evaluate ev = (Return current, ev) ∧
    MaxLengthIntStringConversion.eval_set (Integer 10) ev = (Return current, ev') ∧
    (∀ (B : Type) (sibling : Expr → M B),
       (MaxLengthIntStringConversion.eval_set (Integer 10) ≫= sibling) ev
       = sibling current ev') ∧
    dispatch pmatch builtins "System`$MaxLengthIntStringConversion"
      (Expression (Symbol "System`Set")
         [Symbol "System`$MaxLengthIntStringConversion"; Integer 10]) ev
    = (Return (Rewritten current), ev').
Proof.
  intros ev'.
  exists (Integer (default 0 (int_max_str_digits (runtime ev)))).
  pose proof (eval_set_10_run ev) as Hset. fold ev' in Hset.
  split; [apply MaxLength_evaluate_run|].
  split; [exact Hset|].
  split.
  - intros B sibling. by apply bind_return.
  - unfold dispatch, applicable. rewrite builtins_MaxLength.
    cbn -[MaxLengthIntStringConversion.eval_set].
    unfold invoke, handler1. cbn -[MaxLengthIntStringConversion.eval_set].
    unfold mbind, Py_bind, bind. by rewrite Hset.
Qed.

(** C4: SetDelayed[$MaxLengthIntStringConversion, e] raises TypeError for
    every e, where Set returns: the delegation to eval_set leaves the
    evaluation argument out. *)
Theorem eval_setdelayed_raises_TypeError (expr : Expr) (ev : Evaluation) :
  MaxLengthIntStringConversion.eval_setdelayed expr ev = (Raise TypeError, ev) ∧
  (MaxLengthIntStringConversion.eval_set (Integer 10) ev).1
  ≠ (MaxLengthIntStringConversion.eval_setdelayed (Integer 10) ev).1 ∧
  dispatch pmatch builtins "System`$MaxLengthIntStringConversion"
    (Expression (Symbol "System`SetDelayed")
       [Symbol "System`$MaxLengthIntStringConversion"; expr]) ev
  = (Raise TypeError, ev).
Proof.
  split; [reflexivity|]. split.
  - rewrite eval_set_10_run. cbn [fst]. discriminate.
  - unfold dispatch, applicable. rewrite builtins_MaxLength.
    cbn -[MaxLengthIntStringConversion.eval_setdelayed].
    reflexivity.
Qed.

(** ** Environment *)

Lemma builtins_Environment :
  builtins !! "System`Environment" =
    Some (mkDefinition ∅ []
      [mkRule (PExpression (PSymbol "System`Environment")
         [PBlank "var" (Some "System`String")])
        (handler1 "var" Environment.eval)]
      [] []).
Proof.
  lookup_builtin.
Qed.

Lemma Environment_eval_run (v key : string) (ev : Evaluation) :
  encodekey v = Some key →
  Environment.eval (String v) ev =
    (Return (match environ (runtime ev) !! key with
             | Some x => String x
             | None => SymbolFailed
             end), ev).
Proof.
  intros Hkey.
  unfold Environment.eval, get_string_value, gets, mbind, Py_bind, bind.
  cbn [fst snd]. rewrite Hkey.
  destruct (environ (runtime ev) !! key) as [x|] eqn:Hv.
  - rewrite bool_decide_eq_true_2 by eauto. reflexivity.
  - rewrite bool_decide_eq_false_2 by (intros [? ?]; discriminate). reflexivity.
Qed.

(** A name that the key encoding refuses: the membership test raises. *)
Lemma Environment_eval_unencodable (v : string) (ev : Evaluation) :
  encodekey v = None →
  Environment.eval (String v) ev = (Raise UnicodeEncodeError, ev).
Proof.
  intros Hkey.
  unfold Environment.eval, get_string_value, gets, mbind, Py_bind, bind.
  cbn [fst snd]. by rewrite Hkey.
Qed.


(** ** $Machine and $SystemID *)

Lemma builtins_Machine :
  builtins !! "System`$Machine" =
    Some (mkDefinition ∅
      [mkRule (PSymbol "System`$Machine") (handler0 Machine.evaluate)] [] [] []).
Proof. lookup_builtin. Qed.

Lemma builtins_SystemID :
  builtins !! "System`$SystemID" =
    Some (mkDefinition ∅
      [mkRule (PSymbol "System`$SystemID") (handler0 SystemID.evaluate)] [] [] []).
Proof. lookup_builtin. Qed.

(** C9: in every state $Machine and $SystemID evaluate to the same
    String, the platform identifier; so do the dispatches of the two bare
    symbols. *)
Theorem Machine_SystemID_same_value (ev : Evaluation) :
  Machine.evaluate ev = SystemID.evaluate ev ∧
  Machine.evaluate ev = (Return (String (platform (runtime ev))), ev) ∧
  dispatch pmatch builtins "System`$Machine" (Symbol "System`$Machine") ev
  = dispatch pmatch builtins "System`$SystemID" (Symbol "System`$SystemID") ev.
Proof.
  split; [reflexivity|]. split; [reflexivity|].
  unfold dispatch, applicable. rewrite builtins_Machine, builtins_SystemID.
  reflexivity.
Qed.

(** ** $SystemWordLength *)

(** More fuel does not change a result that the loop has reached. *)
Lemma halving_fuel_mono (fuel fuel' : nat) (maxsize size s : Z) :
  (fuel ≤ fuel')%nat →
  SystemWordLength.halving fuel maxsize size = Some s →
  SystemWordLength.halving fuel' maxsize size = Some s.
Proof.
  revert fuel' size. induction fuel as [|fuel IH]; intros fuel' size Hle H.
  - discriminate.
  - destruct fuel' as [|fuel']; [lia|]. cbn [SystemWordLength.halving] in *.
    destruct (negb (maxsize >? 2 ^ size)); [|exact H].
    apply IH; [lia|exact H].
Qed.

(** One test of the loop condition. *)
Lemma halving_step (fuel : nat) (maxsize size : Z) :
  SystemWordLength.halving (S fuel) maxsize size =
    if Z_gt_dec maxsize (2 ^ size) then Some size
    else SystemWordLength.halving fuel maxsize (Z.shiftr size 1).
Proof.
  cbn [SystemWordLength.halving]. unfold Z.gtb.
  destruct (Z_gt_dec maxsize (2 ^ size)) as [H|H].
  - rewrite H. reflexivity.
  - unfold Z.gt in H. destruct (maxsize ?= 2 ^ size); try reflexivity. congruence.
Qed.

(** C8: with sys.maxsize = 2^63 - 1 the loop ends and the value is the
    Integer 64; for any sys.maxsize >= 2 the loop ends, at the first s of
    128, 64, 32, ... (128 shifted right k times) with sys.maxsize > 2^s,
    and the value is 2*s. *)
Theorem SystemWordLength_value (ev : Evaluation) :
  (maxsize (runtime ev) = 2 ^ 63 - 1 →
   ∀ fuel, (3 ≤ fuel)%nat →
     SystemWordLength.evaluate fuel ev = Some (Return (Integer 64), ev)) ∧
  (2 ≤ maxsize (runtime ev) →
   ∃ k : nat,
     (k ≤ 8)%nat ∧
     maxsize (runtime ev) > 2 ^ Z.shiftr 128 (Z.of_nat k) ∧
     (∀ j : nat, (j < k)%nat →
        ¬ maxsize (runtime ev) > 2 ^ Z.shiftr 128 (Z.of_nat j)) ∧
     ∀ fuel, (k < fuel)%nat →
       SystemWordLength.evaluate fuel ev
       = Some (Return (Integer (2 * Z.shiftr 128 (Z.of_nat k))), ev)).
Proof.
  split.
  - intros Hmax fuel Hfuel. unfold SystemWordLength.evaluate.
    rewrite (halving_fuel_mono 3 fuel _ _ 32 Hfuel); [reflexivity|].
    rewrite Hmax. reflexivity.
  - intros Hmax. set (m := maxsize (runtime ev)) in *.
    assert (Hrun : ∀ k : nat, (k ≤ 8)%nat →
              m > 2 ^ Z.shiftr 128 (Z.of_nat k) →
              (∀ j : nat, (j < k)%nat → ¬ m > 2 ^ Z.shiftr 128 (Z.of_nat j)) →
              ∀ fuel, (k < fuel)%nat →
                SystemWordLength.evaluate fuel ev
                = Some (Return (Integer (2 * Z.shiftr 128 (Z.of_nat k))), ev)).
    { intros k Hk Hgt Hfirst fuel Hfuel. unfold SystemWordLength.evaluate. fold m.
      rewrite (halving_fuel_mono (S k) fuel m 128 (Z.shiftr 128 (Z.of_nat k)));
        [cbn [mbind option_bind]; by rewrite Z.shiftl_mul_pow2, Z.mul_comm by lia
        |lia|].
      assert (Hgen : ∀ (n i : nat), (i + n = k)%nat →
                SystemWordLength.halving (S n) m (Z.shiftr 128 (Z.of_nat i))
                = Some (Z.shiftr 128 (Z.of_nat k))).
      { induction n as [|n IH]; intros i Hi; rewrite halving_step.
        - replace i with k by lia. destruct (Z_gt_dec _ _); [reflexivity|done].
        - destruct (Z_gt_dec _ _) as [Hc|Hc].
          + exfalso. apply (Hfirst i); [lia|exact Hc].
          + rewrite Z.shiftr_shiftr by lia.
            replace (Z.of_nat i + 1) with (Z.of_nat (S i)) by lia.
            apply IH. lia. }
      apply (Hgen k 0%nat). lia. }
    assert (Hdec : ∀ j : nat, {m > 2 ^ Z.shiftr 128 (Z.of_nat j)}
                              + {¬ m > 2 ^ Z.shiftr 128 (Z.of_nat j)})
      by (intros j; apply Z_gt_dec).
    assert (H8 : m > 2 ^ Z.shiftr 128 (Z.of_nat 8))
      by (replace (2 ^ Z.shiftr 128 (Z.of_nat 8)) with 1 by reflexivity; lia).
    assert (Hfind : ∀ n : nat, (n ≤ 8)%nat →
              (∀ j : nat, (j < 8 - n)%nat → ¬ m > 2 ^ Z.shiftr 128 (Z.of_nat j)) →
              ∃ k : nat, (k ≤ 8)%nat ∧ m > 2 ^ Z.shiftr 128 (Z.of_nat k) ∧
                ∀ j : nat, (j < k)%nat → ¬ m > 2 ^ Z.shiftr 128 (Z.of_nat j)).
    { induction n as [|n IH]; intros Hn Hbelow.
      - exists 8%nat. split; [lia|]. split; [exact H8|].
        intros j Hj. apply Hbelow. lia.
      - destruct (Hdec (8 - S n)%nat) as [Hc|Hc].
        + exists (8 - S n)%nat. split; [lia|]. split; [exact Hc|exact Hbelow].
        + apply IH; [lia|]. intros j Hj.
          destruct (decide (j = 8 - S n)%nat) as [->|Hne]; [exact Hc|].
          apply Hbelow. lia. }
    destruct (Hfind 8%nat) as (k & Hk & Hgt & Hfirst); [lia|intros j Hj; lia|].
    exists k. split; [exact Hk|]. split; [exact Hgt|]. split; [exact Hfirst|].
    by apply Hrun.
Qed.

(** ** $ScriptCommandLine *)

Lemma list_index_None (x : string) (l : list string) :
  x ∉ l → list_index x l = None.
Proof.
  induction l as [|y l IH]; intros Hx; [reflexivity|].
  cbn [list_index]. destruct (String.eqb_spec y x) as [->|Hne].
  - exfalso. apply Hx. left.
  - rewrite IH; [reflexivity|]. intros Hin. apply Hx. by right.
Qed.

Lemma list_index_first (x : string) (l : list string) (i : nat) :
  l !! i = Some x →
  (∀ j : nat, (j < i)%nat → l !! j ≠ Some x) →
  list_index x l = Some i.
Proof.
  revert i. induction l as [|y l IH]; intros i Hi Hfirst; [discriminate|].
  cbn [list_index]. destruct (String.eqb_spec y x) as [->|Hne].
  - destruct i as [|i]; [reflexivity|].
    exfalso. apply (Hfirst 0%nat); [lia|reflexivity].
  - destruct i as [|i]; [cbn in Hi; congruence|].
    rewrite (IH i); [reflexivity|exact Hi|].
    intros j Hj. apply (Hfirst (S j)). lia.
Qed.

(** C10: without "--" in the argument vector the value is the empty
    list; with the first "--" at index i > 0 it is the list of the Strings
    of argument i-1 and of every argument after index i; with the first
    "--" at index 0 the first element is the empty String. *)
Theorem ScriptCommandLine_value (ev : Evaluation) :
  let args := argv (runtime ev) in
  ("--" ∉ args → ScriptCommandLine.evaluate ev = (Return (ListExpression []), ev)) ∧
  (∀ i : nat,
     args !! i = Some "--" →
     (∀ j : nat, (j < i)%nat → args !! j ≠ Some "--") →
     ((0 < i)%nat →
      ∃ script, args !! (i - 1)%nat = Some script ∧
        ScriptCommandLine.evaluate ev
        = (Return (ListExpression
                     (String script :: (String <$> drop (S i) args))), ev)) ∧
     (i = 0%nat →
      ScriptCommandLine.evaluate ev
      = (Return (ListExpression (String "" :: (String <$> drop 1 args))), ev))).
Proof.
  intros args. split.
  - intros Hnone. unfold ScriptCommandLine.evaluate, gets, mbind, Py_bind, bind.
    fold args. by rewrite list_index_None.
  - intros i Hi Hfirst.
    assert (Hidx : list_index "--" args = Some i) by by apply list_index_first.
    split.
    + intros Hpos.
      destruct (lookup_lt_is_Some_2 args (i - 1)%nat) as [script Hscript].
      { apply lookup_lt_Some in Hi. lia. }
      exists script. split; [exact Hscript|].
      unfold ScriptCommandLine.evaluate, gets, mbind, Py_bind, bind.
      fold args. rewrite Hidx.
      destruct i as [|i]; [lia|]. cbn [Nat.eqb].
      unfold getitem. rewrite Hscript. cbn.
      unfold ScriptCommandLine.to_mathics_list.
      by replace (S (i + 1))%nat with (S (S i)) by lia.
    + intros ->.
      unfold ScriptCommandLine.evaluate, gets, mbind, Py_bind, bind.
      fold args. rewrite Hidx. reflexivity.
Qed.

(** ** Symbol interner *)

Lemma interner_wf_empty : interner_wf empty_interner.
Proof. split; intros *; cbn; by rewrite lookup_empty. Qed.

Lemma intern_lookup (n : string) (I : Interner) :
  table (intern n I).2 !! n = Some (intern n I).1.
Proof.
  unfold intern. destruct (table I !! n) eqn:Hn; cbn; [exact Hn|].
  apply lookup_insert_eq.
Qed.

Lemma intern_known (n : string) (I : Interner) (id : positive) :
  table I !! n = Some id → (intern n I).1 = id.
Proof. unfold intern. by intros ->. Qed.

Lemma intern_keeps (n m : string) (I : Interner) (id : positive) :
  table I !! m = Some id → table (intern n I).2 !! m = Some id.
Proof.
  intros Hm. unfold intern. destruct (table I !! n) eqn:Hn; cbn; [exact Hm|].
  rewrite lookup_insert_ne; [exact Hm|congruence].
Qed.

Lemma intern_wf (n : string) (I : Interner) :
  interner_wf I → interner_wf (intern n I).2.
Proof.
  intros [Hlt Hinj]. unfold intern.
  destruct (table I !! n) eqn:Hn; cbn; [by split|].
  split; cbn.
  - intros m id. rewrite lookup_insert. case_decide.
    + intros [= <-]. lia.
    + intros Hm. specialize (Hlt _ _ Hm). lia.
  - intros m1 m2 id. rewrite !lookup_insert.
    repeat case_decide; subst; try done.
    + intros [= <-] Hm. specialize (Hlt _ _ Hm). lia.
    + intros Hm [= <-]. specialize (Hlt _ _ Hm). lia.
    + apply Hinj.
Qed.

Lemma intern_all_wf (names : list string) (I : Interner) :
  interner_wf I → interner_wf (intern_all names I).
Proof.
  revert I. induction names as [|n names IH]; intros I HI; [exact HI|].
  apply IH, intern_wf, HI.
Qed.

Lemma intern_all_keeps (names : list string) (m : string) (I : Interner)
    (id : positive) :
  table I !! m = Some id → table (intern_all names I) !! m = Some id.
Proof.
  revert I. induction names as [|n names IH]; intros I Hm; [exact Hm|].
  apply IH, intern_keeps, Hm.
Qed.

(** C6: in a session (any names interned before, any names interned in
    between), interning a name again gives the identity it got the first
    time, and the identities of two names are equal exactly when the names
    are. *)
Theorem intern_same_identity_iff_same_name
    (history between : list string) (n m : string) :
  let I0 := intern_all history empty_interner in
  let first := intern n I0 in
  let later := intern_all between first.2 in
  (intern n later).1 = first.1 ∧
  (first.1 = (intern m later).1 ↔ n = m).
Proof.
  intros I0 first later.
  assert (Hwf : interner_wf later)
    by apply intern_all_wf, intern_wf, intern_all_wf, interner_wf_empty.
  assert (Hn : table later !! n = Some first.1)
    by apply intern_all_keeps, intern_lookup.
  split; [by apply intern_known|].
  split.
  - intros Heq. destruct Hwf as [Hlt Hinj].
    destruct (table later !! m) as [id|] eqn:Hm.
    + rewrite (intern_known _ _ _ Hm) in Heq. subst id. by eapply Hinj.
    + exfalso. unfold intern in Heq. rewrite Hm in Heq. cbn in Heq.
      specialize (Hlt _ _ Hn). lia.
  - intros <-. symmetry. by apply intern_known.
Qed.

(** ** Definition store, registration and dispatch *)

Section RegistryFacts.
Context {Pattern Bindings : Type}.
Context (pmatch : Pattern → Expr → option Bindings).
Context (pattern_position : string → Pattern → Position).
Context (validate : Pattern → bool).

Local Open Scope list_scope.

Implicit Types (D : gmap string (@SymbolDefinition Pattern Bindings)).
Implicit Types (r : @Rule Pattern Bindings) (e : Expr) (ev : Evaluation).

Lemma get_or_create_definition symbol D :
  (get_or_create symbol D).1 = default empty_definition (D !! symbol).
Proof. unfold get_or_create. by destruct (D !! symbol). Qed.

Lemma rules_at_append_rule pos pos' r (d : @SymbolDefinition Pattern Bindings) :
  rules_at pos' (append_rule pos r d) =
    rules_at pos' d ++ (if decide (pos' = pos) then [r] else []).
Proof. destruct pos, pos'; cbn; by rewrite ?app_nil_r. Qed.

(** *** Walking a rule list *)

Lemma walk_no_match (rules : list Rule) e ev :
  (∀ r, r ∈ rules → pmatch (pattern r) e = None) →
  walk pmatch rules e ev = (Return Unchanged, ev).
Proof.
  induction rules as [|r rules IH]; intros Hnone; [reflexivity|].
  cbn [walk]. rewrite Hnone by left.
  apply IH. intros r' Hr'. apply Hnone. by right.
Qed.

Lemma walk_app_no_match (rules rest : list Rule) e :
  (∀ r, r ∈ rules → pmatch (pattern r) e = None) →
  walk pmatch (rules ++ rest) e = walk pmatch rest e.
Proof.
  induction rules as [|r rules IH]; intros Hnone; [reflexivity|].
  cbn [walk app]. rewrite Hnone by left.
  apply IH. intros r' Hr'. apply Hnone. by right.
Qed.

Lemma walk_app_match (rules rest : list Rule) e :
  (∃ r, r ∈ rules ∧ is_Some (pmatch (pattern r) e)) →
  walk pmatch (rules ++ rest) e = walk pmatch rules e.
Proof.
  induction rules as [|r rules IH]; intros (r' & Hin & Hsome).
  - by apply elem_of_nil in Hin.
  - cbn [walk app]. destruct (pmatch (pattern r) e) eqn:Hr; [reflexivity|].
    apply IH. exists r'. split; [|exact Hsome].
    apply elem_of_cons in Hin as [->|Hin]; [|exact Hin].
    rewrite Hr in Hsome. by destruct Hsome.
Qed.

(** *** Registration only appends *)

Lemma register_applicable symbol p h D D' s e :
  register pattern_position validate symbol p h D = Some D' →
  applicable D' s e =
    applicable D s e ++
    (if decide (s = symbol ∧ call_position s e = pattern_position symbol p)
     then [mkRule p h] else []).
Proof.
  unfold register. destruct (validate p); [|discriminate]. intros [= <-].
  unfold applicable. rewrite get_or_create_definition, lookup_insert.
  destruct (decide (symbol = s)) as [->|Hne].
  - cbn [from_option id]. rewrite rules_at_append_rule.
    destruct (decide (call_position s e = pattern_position s p)) as [Heq|Hne].
    + by rewrite decide_True.
    + by rewrite decide_False by (by intros [_ ?]).
  - rewrite decide_False by (intros [? _]; congruence). by rewrite app_nil_r.
Qed.

Lemma register_all_applicable rs D D' s e :
  register_all pattern_position validate rs D = Some D' →
  ∃ extra, applicable D' s e = applicable D s e ++ extra.
Proof.
  revert D. induction rs as [|[[symbol p] h] rs IH]; intros D.
  - intros [= <-]. exists []. by rewrite app_nil_r.
  - cbn [register_all].
    destruct (register pattern_position validate symbol p h D) as [D1|] eqn:H1;
      [|discriminate].
    intros Hrest. destruct (IH _ Hrest) as [extra Hextra].
    rewrite Hextra, (register_applicable _ _ _ _ _ s e H1), <- app_assoc.
    eauto.
Qed.

(** C7: after clear(symbol) the attributes of the symbol are empty and
    the dispatch of the symbol is Unchanged on every expression, with
    nothing emitted; the definitions of the other symbols are as
    before. *)
Theorem clear_resets_symbol D symbol :
  get_attributes symbol (clear symbol D) = ∅ ∧
  (∀ e ev, dispatch pmatch (clear symbol D) symbol e ev = (Return Unchanged, ev)) ∧
  (∀ pos, rules_at pos (default empty_definition (clear symbol D !! symbol)) = []) ∧
  (∀ other, other ≠ symbol → clear symbol D !! other = D !! other).
Proof.
  unfold clear, get_attributes, dispatch, applicable.
  rewrite get_or_create_definition, lookup_insert_eq. cbn [from_option id].
  split; [reflexivity|]. split; [|split].
  - intros e ev. by destruct (call_position symbol e).
  - by intros [].
  - intros other Hne. by rewrite lookup_insert_ne.
Qed.

(** C3: when no rule consulted for the symbol matches the expression,
    the dispatch is Unchanged and the evaluation object is as before (no
    message); and the evaluation of an expression of literal elements,
    none of whose positions has a matching rule, is that expression,
    Stable, with no message. *)
Theorem no_match_is_unchanged D e ev :
  (∀ symbol,
     (∀ r, r ∈ applicable D symbol e → pmatch (pattern r) e = None) →
     dispatch pmatch D symbol e ev = (Return Unchanged, ev)) ∧
  (∀ steps : nat,
     (2 ≤ steps)%nat →
     (∀ c, c ∈ match e with Expression _ args => args | _ => [] end →
           match c with Integer _ | String _ => True | _ => False end) →
     (∀ symbol r, symbol ∈ positions e → r ∈ applicable D symbol e →
                  pmatch (pattern r) e = None) →
     evaluate pmatch steps D e ev = (Return (e, Stable), ev)).
Proof.
  split.
  - intros symbol Hnone. by apply walk_no_match.
  - intros steps Hsteps Hlit Hnone.
    assert (Hpass : ∀ symbols, (∀ s, s ∈ symbols → s ∈ positions e) →
              full_pass pmatch D symbols e ev = (Return Unchanged, ev)).
    { induction symbols as [|s symbols IH]; intros Hsub; [reflexivity|].
      cbn [full_pass]. rewrite (bind_return _ _ ev Unchanged ev).
      2:{ apply walk_no_match. intros r Hr. eapply Hnone; [|exact Hr].
          apply Hsub. left. }
      apply IH. intros s' Hs'. apply Hsub. by right. }
    destruct steps as [|steps]; [lia|]. cbn [evaluate].
    assert (Hatom : ∀ c ev', match c with Integer _ | String _ => True | _ => False end →
              (evaluate pmatch steps D c ≫= λ res, mret res.1) ev' = (Return c, ev')).
    { intros c ev' Hc. destruct steps as [|steps']; [lia|].
      destruct c; try done. }
    assert (Hchildren : ∀ attrs args i,
              (∀ c, c ∈ args →
                    match c with Integer _ | String _ => True | _ => False end) →
              evaluate_children attrs
                (λ c, evaluate pmatch steps D c ≫= λ res, mret res.1) i args ev
              = (Return args, ev)).
    { intros attrs args. induction args as [|c args IH]; intros i Hargs;
        [reflexivity|].
      cbn [evaluate_children].
      rewrite (bind_return _ _ ev c ev).
      2:{ destruct (held attrs i); [reflexivity|]. apply Hatom, Hargs. left. }
      rewrite (bind_return _ _ ev args ev); [reflexivity|].
      apply IH. intros c' Hc'. apply Hargs. by right. }
    rewrite (bind_return _ _ ev e ev).
    2:{ destruct e as [| | |h args]; try reflexivity.
        rewrite (bind_return _ _ ev args ev); [reflexivity|].
        apply Hchildren, Hlit. }
    rewrite (bind_return _ _ ev Unchanged ev); [reflexivity|]. by apply Hpass.
Qed.

(** C2: R1 is registered, then any rules, then R2, all on the store D;
    R1 and R2 have the position class of the call and both match e.
    Then the dispatch is what it was with R1 alone registered, and when
    no rule registered before R1 matches e it is the run of the handler
    of R1 on the bindings of R1 and nothing else. *)
Theorem first_registered_match_wins
    D D1 Dm D2 symbol p1 h1 p2 h2 mid e b1 b2 ev :
  register pattern_position validate symbol p1 h1 D = Some D1 →
  register_all pattern_position validate mid D1 = Some Dm →
  register pattern_position validate symbol p2 h2 Dm = Some D2 →
  pattern_position symbol p1 = call_position symbol e →
  pattern_position symbol p2 = call_position symbol e →
  pmatch p1 e = Some b1 →
  pmatch p2 e = Some b2 →
  dispatch pmatch D2 symbol e ev = dispatch pmatch D1 symbol e ev ∧
  ((∀ r, r ∈ applicable D symbol e → pmatch (pattern r) e = None) →
   dispatch pmatch D2 symbol e ev = invoke (mkRule p1 h1) b1 ev).
Proof.
  intros H1 Hmid H2 Hpos1 Hpos2 Hm1 Hm2.
  pose proof (register_applicable _ _ _ _ _ symbol e H1) as HD1.
  rewrite decide_True in HD1 by done.
  destruct (register_all_applicable _ _ _ symbol e Hmid) as [extra Hextra].
  pose proof (register_applicable _ _ _ _ _ symbol e H2) as HD2.
  rewrite decide_True in HD2 by done.
  assert (Heq : dispatch pmatch D2 symbol e = dispatch pmatch D1 symbol e).
  { unfold dispatch. rewrite HD2, Hextra, <- app_assoc.
    apply walk_app_match. exists (mkRule p1 h1). split.
    - rewrite HD1. apply elem_of_app. right. left.
    - cbn. rewrite Hm1. eauto. }
  split; [by rewrite Heq|].
  intros Hnone. rewrite Heq. unfold dispatch.
  rewrite HD1, walk_app_no_match by exact Hnone.
  cbn [walk pattern]. by rewrite Hm1.
Qed.

End RegistryFacts.

(** ** More on $MaxLengthIntStringConversion *)

Lemma message_inv_run (expr : Expr) (ev : Evaluation) :
  message "$MaxLengthIntStringConversion" "inv" [expr] ev =
    (Return tt,
     mkEvaluation (runtime ev)
       (out ev ++ [mkMessage "$MaxLengthIntStringConversion" "inv"
                     (format_output expr +:+ " is not 0 or an Integer value >640.")])).
Proof.
  unfold message, emit. cbn [fmap list_fmap].
  generalize (format_output expr). intros a.
  vm_compute. reflexivity.
Qed.

(** The run of [eval_set], case by case. *)
Lemma eval_set_run (expr : Expr) (ev : Evaluation) :
  let reported :=
    mkEvaluation (runtime ev)
      (out ev ++ [mkMessage "$MaxLengthIntStringConversion" "inv"
                    (format_output expr +:+ " is not 0 or an Integer value >640.")]) in
  MaxLengthIntStringConversion.eval_set expr ev =
    match as_Integer expr, int_max_str_digits (runtime ev) with
    | Some v, Some d =>
        if negb ((-2147483648 <=? v) && (v <=? 2147483647))
        then (Raise OverflowError, ev)
        else if (v =? 0) || (640 <=? v)
        then (Return (Integer v),
              mkEvaluation
                (mkRuntime (Some v) (maxsize (runtime ev)) (platform (runtime ev))
                   (argv (runtime ev)) (environ (runtime ev)))
                (out ev))
        else (Return (Integer d), reported)
    | Some v, None =>
        (Return Integer0, if negb (v =? 0) && (v <? 640) then reported else ev)
    | None, limit => (Return (Integer (default 0 limit)), reported)
    end.
Proof.
  intros reported.
  unfold MaxLengthIntStringConversion.eval_set.
  destruct (as_Integer expr) as [v|].
  - unfold try_except, mbind, Py_bind, bind, sys_set_int_max_str_digits.
    destruct (int_max_str_digits (runtime ev)) as [d|] eqn:Hd.
    + destruct (negb ((-2147483648 <=? v) && (v <=? 2147483647))); [reflexivity|].
      destruct ((v =? 0) || (640 <=? v)).
      * rewrite MaxLength_evaluate_run. reflexivity.
      * unfold mret, Py_ret, ret.
        rewrite message_inv_run, MaxLength_evaluate_run.
        cbn [runtime]. rewrite Hd. reflexivity.
    + destruct (negb (v =? 0) && (v <? 640)).
      * rewrite message_inv_run. reflexivity.
      * reflexivity.
  - unfold mbind, Py_bind, bind, mret, Py_ret, ret.
    rewrite message_inv_run, MaxLength_evaluate_run. reflexivity.
Qed.

(** X1: on an interpreter that has the digit limit, assigning 0 or an
    Integer from 640 up to the largest C int sets the limit to that value,
    emits nothing and returns the value; reading the constant afterwards
    gives the value assigned. *)
Theorem eval_set_accepts_valid_limit (ev : Evaluation) (d v : Z) :
  int_max_str_digits (runtime ev) = Some d →
  v = 0 ∨ 640 ≤ v ≤ 2147483647 →
  ∃ ev',
    MaxLengthIntStringConversion.eval_set (Integer v) ev = (Return (Integer v), ev') ∧
    int_max_str_digits (runtime ev') = Some v ∧
    out ev' = out ev ∧
    MaxLengthIntStringConversion.evaluate ev' = (Return (Integer v), ev').
Proof.
  intros Hd Hv. rewrite eval_set_run. cbn [as_Integer]. rewrite Hd.
  assert (Hrange : negb ((-2147483648 <=? v) && (v <=? 2147483647)) = false)
    by (rewrite negb_false_iff, andb_true_iff, !Z.leb_le; lia).
  assert (Hvalid : (v =? 0) || (640 <=? v) = true)
    by (rewrite orb_true_iff, Z.eqb_eq, Z.leb_le; lia).
  rewrite Hrange, Hvalid. eexists. split; [reflexivity|].
  split; [reflexivity|]. split; [reflexivity|].
  rewrite MaxLength_evaluate_run. reflexivity.
Qed.

(** X2: on an interpreter that has the digit limit, an assignment of
    anything that is not an Integer, or of a non-zero Integer below 640
    (down to the smallest C int), is rejected: one message [inv] with the
    text of the argument is appended, the limit stays what it was, and the
    value returned is the limit.  The text is the digits of an Integer, the
    characters of a String and, for anything else, what the formatter of
    the engine gives, whichever formatter that is. *)
Theorem eval_set_rejects_invalid_limit (ev : Evaluation) (d : Z) (expr : Expr) :
  int_max_str_digits (runtime ev) = Some d →
  match expr with
  | Integer v => v ≠ 0 ∧ -2147483648 ≤ v < 640
  | _ => True
  end →
  MaxLengthIntStringConversion.eval_set expr ev =
    (Return (Integer d),
     mkEvaluation (runtime ev)
       (out ev ++ [mkMessage "$MaxLengthIntStringConversion" "inv"
                     (format_output expr +:+ " is not 0 or an Integer value >640.")])).
Proof.
  intros Hd Hexpr. rewrite eval_set_run, Hd.
  destruct expr as [v| | |]; cbn [as_Integer]; try reflexivity.
  assert (Hrange : negb ((-2147483648 <=? v) && (v <=? 2147483647)) = false)
    by (rewrite negb_false_iff, andb_true_iff, !Z.leb_le; lia).
  assert (Hvalid : (v =? 0) || (640 <=? v) = false)
    by (rewrite orb_false_iff, Z.eqb_neq, Z.leb_gt; lia).
  by rewrite Hrange, Hvalid.
Qed.

(** X3: on an interpreter without the digit limit (older than 3.11) the
    assignment of an Integer never has an effect on the interpreter and
    always returns 0; the message [inv] is emitted exactly for the non-zero
    values below 640, so 0 and the values from 640 on are taken
    silently. *)
Theorem eval_set_without_limit_returns_zero (ev : Evaluation) (v : Z) :
  int_max_str_digits (runtime ev) = None →
  ∃ ev',
    MaxLengthIntStringConversion.eval_set (Integer v) ev = (Return Integer0, ev') ∧
    runtime ev' = runtime ev ∧
    (v ≠ 0 ∧ v < 640 →
     out ev' = (out ev ++ [mkMessage "$MaxLengthIntStringConversion" "inv"
                             (format_output (Integer v)
                              +:+ " is not 0 or an Integer value >640.")])%list) ∧
    (v = 0 ∨ 640 ≤ v → ev' = ev).
Proof.
  intros Hd. rewrite eval_set_run. cbn [as_Integer]. rewrite Hd.
  eexists. split; [reflexivity|].
  destruct (Z.eqb_spec v 0) as [Heq|Hne], (Z.ltb_spec v 640) as [Hlt|Hge];
    cbn [negb andb]; (split; [reflexivity|]); split; try (intros; lia);
    intros; reflexivity.
Qed.

(** X4: the only exception that leaves [eval_set] is the OverflowError of
    the conversion to a C int, for an Integer outside the 32-bit range on
    an interpreter that has the limit; nothing was emitted or changed by
    then.  AttributeError and ValueError never reach the caller. *)
Theorem eval_set_raises_only_OverflowError
    (expr : Expr) (ev ev' : Evaluation) (x : Exn) :
  MaxLengthIntStringConversion.eval_set expr ev = (Raise x, ev') →
  x = OverflowError ∧ ev' = ev ∧
  is_Some (int_max_str_digits (runtime ev)) ∧
  ∃ v, expr = Integer v ∧ (v < -2147483648 ∨ 2147483647 < v).
Proof.
  rewrite eval_set_run.
  destruct expr as [v| | |]; cbn [as_Integer];
    destruct (int_max_str_digits (runtime ev)) as [d|]; try discriminate.
  destruct (Z.leb_spec (-2147483648) v) as [Hlo|Hlo],
           (Z.leb_spec v 2147483647) as [Hhi|Hhi];
    cbn [negb andb]; try (destruct ((v =? 0) || (640 <=? v)); discriminate);
    intros [= <- <-]; (split; [reflexivity|]); (split; [reflexivity|]);
    (split; [eauto|]); exists v; (split; [reflexivity|lia]).
Qed.

(** X5: whenever [eval_set] returns, the value it returns is the value the
    constant has afterwards. *)
Theorem eval_set_returns_value_afterwards
    (expr r : Expr) (ev ev' : Evaluation) :
  MaxLengthIntStringConversion.eval_set expr ev = (Return r, ev') →
  MaxLengthIntStringConversion.evaluate ev' = (Return r, ev').
Proof.
  rewrite eval_set_run, MaxLength_evaluate_run.
  destruct (as_Integer expr) as [v|];
    destruct (int_max_str_digits (runtime ev)) as [d|] eqn:Hd.
  - destruct (negb _); [discriminate|].
    destruct ((v =? 0) || (640 <=? v)); intros [= <- <-]; cbn [runtime];
      [reflexivity|by rewrite Hd].
  - destruct (negb (v =? 0) && (v <? 640)); intros [= <- <-]; cbn [runtime];
      by rewrite Hd.
  - intros [= <- <-]. cbn [runtime]. by rewrite Hd.
  - intros [= <- <-]. cbn [runtime]. by rewrite Hd.
Qed.

(** X6: whatever is assigned and however the call ends, [eval_set] leaves
    sys.maxsize, sys.platform, sys.argv and os.environ alone, only adds to
    the messages (at most one), neither creates nor removes the digit
    limit, and keeps a limit that is 0 or at least 640 so. *)
Theorem eval_set_frame_and_limit_invariant
    (expr : Expr) (ev ev' : Evaluation) (res : Result Expr) :
  MaxLengthIntStringConversion.eval_set expr ev = (res, ev') →
  maxsize (runtime ev') = maxsize (runtime ev) ∧
  platform (runtime ev') = platform (runtime ev) ∧
  argv (runtime ev') = argv (runtime ev) ∧
  environ (runtime ev') = environ (runtime ev) ∧
  (∃ new, out ev' = (out ev ++ new)%list ∧ (List.length new ≤ 1)%nat) ∧
  (is_Some (int_max_str_digits (runtime ev'))
   ↔ is_Some (int_max_str_digits (runtime ev))) ∧
  ((∀ d, int_max_str_digits (runtime ev) = Some d → d = 0 ∨ 640 ≤ d) →
   ∀ d', int_max_str_digits (runtime ev') = Some d' → d' = 0 ∨ 640 ≤ d').
Proof.
  rewrite eval_set_run.
  assert (Hsame : ∀ new : list Message, (List.length new ≤ 1)%nat →
            ∀ ev1, ev1 = mkEvaluation (runtime ev) (out ev ++ new)%list →
            maxsize (runtime ev1) = maxsize (runtime ev) ∧
            platform (runtime ev1) = platform (runtime ev) ∧
            argv (runtime ev1) = argv (runtime ev) ∧
            environ (runtime ev1) = environ (runtime ev) ∧
            (∃ new, out ev1 = (out ev ++ new)%list ∧ (List.length new ≤ 1)%nat) ∧
            (is_Some (int_max_str_digits (runtime ev1))
             ↔ is_Some (int_max_str_digits (runtime ev))) ∧
            ((∀ d, int_max_str_digits (runtime ev) = Some d → d = 0 ∨ 640 ≤ d) →
             ∀ d', int_max_str_digits (runtime ev1) = Some d' → d' = 0 ∨ 640 ≤ d')).
  { intros new Hnew ev1 ->. cbn [runtime out]. repeat split; eauto. }
  assert (Hev : ev = mkEvaluation (runtime ev) (out ev ++ [])%list)
    by (rewrite app_nil_r; by destruct ev).
  destruct (as_Integer expr) as [v|];
    destruct (int_max_str_digits (runtime ev)) as [d|] eqn:Hd.
  - destruct (negb _).
    + intros [= <- <-]. apply (Hsame []); [cbn; lia|exact Hev].
    + destruct ((v =? 0) || (640 <=? v)) eqn:Hvalid; intros [= <- <-].
      * cbn [runtime out maxsize platform argv environ int_max_str_digits].
        repeat split; eauto.
        -- exists []. rewrite app_nil_r. split; [reflexivity|cbn; lia].
        -- intros _ d' [= <-].
           apply orb_true_iff in Hvalid as [H0|H640];
             [left; by apply Z.eqb_eq|right; by apply Z.leb_le].
      * eapply Hsame; [|reflexivity]. cbn; lia.
  - destruct (negb (v =? 0) && (v <? 640)); intros [= <- <-].
    + eapply Hsame; [|reflexivity]. cbn; lia.
    + apply (Hsame []); [cbn; lia|exact Hev].
  - intros [= <- <-]. eapply Hsame; [|reflexivity]. cbn; lia.
  - intros [= <- <-]. eapply Hsame; [|reflexivity]. cbn; lia.
Qed.

(** ** More on $ScriptCommandLine and $CommandLine *)

Lemma list_index_Some_inv (x : string) (l : list string) (i : nat) :
  list_index x l = Some i →
  l !! i = Some x ∧ ∀ j : nat, (j < i)%nat → l !! j ≠ Some x.
Proof.
  revert i. induction l as [|y l IH]; intros i; [discriminate|].
  cbn [list_index]. destruct (String.eqb_spec y x) as [->|Hne].
  - intros [= <-]. split; [reflexivity|]. intros j Hj. lia.
  - destruct (list_index x l) as [k|]; [|discriminate].
    intros [= <-]. destruct (IH k eq_refl) as [Hk Hfirst].
    split; [exact Hk|].
    intros [|j] Hj; cbn; [congruence|]. apply Hfirst. lia.
Qed.

Lemma list_index_None_inv (x : string) (l : list string) :
  list_index x l = None → x ∉ l.
Proof.
  induction l as [|y l IH]; [intros _; apply not_elem_of_nil|].
  cbn [list_index]. destruct (String.eqb_spec y x) as [->|Hne]; [discriminate|].
  destruct (list_index x l); [discriminate|].
  intros _ Hin. apply elem_of_cons in Hin as [Heq|Hin]; [congruence|].
  by apply IH.
Qed.

(** X7: for every argument vector $ScriptCommandLine returns, without
    raising and without touching the evaluation object: the index
    [dash_index - 1] is always in range.  The value is a list of Strings,
    never longer than the argument vector, and it is the empty list exactly
    when there is no separator. *)
Theorem ScriptCommandLine_always_returns (ev : Evaluation) :
  ∃ elements,
    ScriptCommandLine.evaluate ev = (Return (ListExpression elements), ev) ∧
    Forall (λ e, ∃ s, e = String s) elements ∧
    (List.length elements ≤ List.length (argv (runtime ev)))%nat ∧
    (elements = [] ↔ "--" ∉ argv (runtime ev)).
Proof.
  unfold ScriptCommandLine.evaluate, gets, mbind, Py_bind, bind.
  set (args := argv (runtime ev)).
  destruct (list_index "--" args) as [i|] eqn:Hi.
  - destruct (list_index_Some_inv _ _ _ Hi) as [Hsep _].
    pose proof (lookup_lt_Some _ _ _ Hsep) as Hlt.
    assert (Hscript : ∃ scriptname,
              (if Nat.eqb i 0 then mret "" else getitem args (i - 1)%nat) ev
              = (Return scriptname, ev)).
    { destruct i as [|i]; [by exists ""|]. cbn [Nat.eqb]. unfold getitem.
      destruct (lookup_lt_is_Some_2 args (S i - 1)%nat) as [s Hs]; [lia|].
      rewrite Hs. by exists s. }
    destruct Hscript as [scriptname ->].
    eexists. split; [reflexivity|]. split; [|split].
    + apply Forall_fmap, Forall_true. intros s. cbn. eauto.
    + rewrite length_fmap. cbn. rewrite length_drop. unfold args in *. lia.
    + split; [discriminate|]. intros Hnone. exfalso. apply Hnone.
      by eapply list_elem_of_lookup_2.
  - exists []. split; [reflexivity|]. split; [constructor|].
    split; [cbn; lia|]. split; [|reflexivity].
    intros _. by apply list_index_None_inv.
Qed.


(** ** More on $SystemWordLength *)

(** X9: for sys.maxsize <= 1 the loop never ends: no amount of fuel
    gives a value. *)
Theorem SystemWordLength_diverges_below_two (ev : Evaluation) (fuel : nat) :
  maxsize (runtime ev) ≤ 1 →
  SystemWordLength.evaluate fuel ev = None.
Proof.
  intros Hmax. unfold SystemWordLength.evaluate.
  assert (Hloop : ∀ size, 0 ≤ size →
            SystemWordLength.halving fuel (maxsize (runtime ev)) size = None).
  { induction fuel as [|fuel IH]; intros size Hsize; [reflexivity|].
    rewrite halving_step. destruct (Z_gt_dec _ _) as [Hgt|_].
    - exfalso. pose proof (Z.pow_pos_nonneg 2 size). lia.
    - apply IH. rewrite Z.shiftr_div_pow2 by lia. apply Z.div_pos; lia. }
  by rewrite Hloop.
Qed.

(** One case of the loop: it stops at [s], the predecessor of [s] in the
    sequence having failed the test. *)
Ltac word_level Hfuel H9 n s Hgt Hprev :=
  exists n; split; [lia|]; split;
  [ let fuel := fresh "fuel" in
    let Hf := fresh "Hf" in
    intros fuel Hf; apply (Hfuel s fuel Hf); rewrite H9;
    repeat (destruct (Z_gt_dec _ _) as [?|?]; [first [reflexivity|contradiction]|]);
    first [reflexivity|contradiction]
  | split; [exact (Z.gt_lt _ _ Hgt)|intros _; exact (Znot_gt_le _ _ Hprev)] ].

(** X10: for sys.maxsize >= 3 the value w of $SystemWordLength is a power
    of two from 2 to 256 with 2^(w/2) < sys.maxsize, and sys.maxsize <= 2^w
    unless w is 256; for sys.maxsize = 2 the value is 0. *)
Theorem SystemWordLength_brackets_maxsize (ev : Evaluation) :
  (maxsize (runtime ev) = 2 →
   ∀ fuel, (9 ≤ fuel)%nat →
     SystemWordLength.evaluate fuel ev = Some (Return (Integer 0), ev)) ∧
  (3 ≤ maxsize (runtime ev) →
   ∃ n : nat,
     (1 ≤ n ≤ 8)%nat ∧
     (∀ fuel, (9 ≤ fuel)%nat →
        SystemWordLength.evaluate fuel ev
        = Some (Return (Integer (2 ^ Z.of_nat n)), ev)) ∧
     2 ^ (2 ^ (Z.of_nat n - 1)) < maxsize (runtime ev) ∧
     ((n < 8)%nat → maxsize (runtime ev) ≤ 2 ^ (2 ^ Z.of_nat n))).
Proof.
  set (m := maxsize (runtime ev)).
  assert (Hfuel : ∀ s fuel, (9 ≤ fuel)%nat →
            SystemWordLength.halving 9 m 128 = Some s →
            SystemWordLength.evaluate fuel ev
            = Some (Return (Integer (Z.shiftl s 1)), ev)).
  { intros s fuel Hfuel H9. unfold SystemWordLength.evaluate. fold m.
    by rewrite (halving_fuel_mono 9 fuel m 128 s Hfuel H9). }
  assert (H9 : SystemWordLength.halving 9 m 128 =
            if Z_gt_dec m (2 ^ 128) then Some 128
            else if Z_gt_dec m (2 ^ 64) then Some 64
            else if Z_gt_dec m (2 ^ 32) then Some 32
            else if Z_gt_dec m (2 ^ 16) then Some 16
            else if Z_gt_dec m (2 ^ 8) then Some 8
            else if Z_gt_dec m (2 ^ 4) then Some 4
            else if Z_gt_dec m (2 ^ 2) then Some 2
            else if Z_gt_dec m (2 ^ 1) then Some 1
            else if Z_gt_dec m (2 ^ 0) then Some 0
            else None).
  { do 9 (rewrite halving_step;
          match goal with
          | |- context [Z.shiftr ?a 1] =>
              let v := eval vm_compute in (Z.shiftr a 1) in
              change (Z.shiftr a 1) with v
          end).
    reflexivity. }
  split.
  - intros Hm fuel Hf. apply (Hfuel 0 fuel Hf). rewrite H9.
    repeat (destruct (Z_gt_dec _ _) as [Hc|Hc];
            [exfalso; revert Hc; rewrite Hm; vm_compute; discriminate|clear Hc]).
    destruct (Z_gt_dec _ _) as [Hc|Hc]; [reflexivity|].
    exfalso. apply Hc. rewrite Hm. reflexivity.
  - intros Hm.
    destruct (Z_gt_dec m (2 ^ 128)) as [H128|H128].
    { exists 8%nat. split; [lia|]. split.
      - intros fuel Hf. apply (Hfuel 128 fuel Hf). rewrite H9.
        destruct (Z_gt_dec m (2 ^ 128)); [reflexivity|contradiction].
      - split; [exact (Z.gt_lt _ _ H128)|lia]. }
    destruct (Z_gt_dec m (2 ^ 64)) as [H64|H64];
      [word_level Hfuel H9 7%nat 64 H64 H128|].
    destruct (Z_gt_dec m (2 ^ 32)) as [H32|H32];
      [word_level Hfuel H9 6%nat 32 H32 H64|].
    destruct (Z_gt_dec m (2 ^ 16)) as [H16|H16];
      [word_level Hfuel H9 5%nat 16 H16 H32|].
    destruct (Z_gt_dec m (2 ^ 8)) as [H8|H8];
      [word_level Hfuel H9 4%nat 8 H8 H16|].
    destruct (Z_gt_dec m (2 ^ 4)) as [H4|H4];
      [word_level Hfuel H9 3%nat 4 H4 H8|].
    destruct (Z_gt_dec m (2 ^ 2)) as [H2|H2];
      [word_level Hfuel H9 2%nat 2 H2 H4|].
    destruct (Z_gt_dec m (2 ^ 1)) as [H1|H1];
      [word_level Hfuel H9 1%nat 1 H1 H2|].
    exfalso. apply H1. change (2 ^ 1) with 2. lia.
Qed.

(** ** $Version *)

Lemma str_replace_chars (old c : ascii) (s : string) :
  c ≠ old →
  (old ∉ list_ascii_of_string (str_replace old (String.String c EmptyString) s)) ∧
  String.length (str_replace old (String.String c EmptyString) s) = String.length s.
Proof.
  intros Hc. induction s as [|a s [IHin IHlen]].
  - split; [apply not_elem_of_nil|reflexivity].
  - cbn [str_replace].
    destruct (Ascii.eqb_spec a old) as [->|Hne];
      [change (String.String c EmptyString
               +:+ str_replace old (String.String c EmptyString) s)
         with (String.String c (str_replace old (String.String c EmptyString) s))|];
      cbn [list_ascii_of_string String.length].
    + split; [|by rewrite IHlen]. intros Hin.
      apply elem_of_cons in Hin as [Heq|Hin]; [congruence|contradiction].
    + split; [|by rewrite IHlen]. intros Hin.
      apply elem_of_cons in Hin as [Heq|Hin]; [congruence|contradiction].
Qed.

Lemma str_replace_absent (old : ascii) (new s : string) :
  old ∉ list_ascii_of_string s → str_replace old new s = s.
Proof.
  induction s as [|a s IH]; intros Hs; [reflexivity|].
  cbn [str_replace]. cbn in Hs. apply not_elem_of_cons in Hs as [Hne Hs].
  destruct (Ascii.eqb_spec a old) as [->|_]; [congruence|].
  by rewrite IH.
Qed.

(** X11: the text of $Version is on one line: it has no newline
    character, it is as long as version_string, and it is version_string
    itself when that has no newline; the evaluation object is left
    alone. *)
Theorem Version_is_one_line (version_string : string) (ev : Evaluation) :
  ∃ text,
    Version.evaluate version_string ev = (Return (String text), ev) ∧
    ("010"%char ∉ list_ascii_of_string text) ∧
    String.length text = String.length version_string ∧
    ("010"%char ∉ list_ascii_of_string version_string → text = version_string).
Proof.
  eexists. split; [reflexivity|].
  destruct (str_replace_chars "010"%char " "%char version_string) as [Hin Hlen];
    [discriminate|].
  split; [exact Hin|]. split; [exact Hlen|]. apply str_replace_absent.
Qed.

(** ** MemoryInUse *)

Set Warnings "-clear-no-such-hyp".

Section MemoryInUseFacts.
Context (heap : Heap) (default_size : Z).

Lemma total_size_empty : MemoryInUse.total_size heap default_size ∅ = 0.
Proof. unfold MemoryInUse.total_size. by rewrite set_fold_empty. Qed.

Lemma total_size_singleton (obj : positive) :
  MemoryInUse.total_size heap default_size {[ obj ]}
  = MemoryInUse.size_of heap default_size obj.
Proof. unfold MemoryInUse.total_size. rewrite set_fold_singleton. lia. Qed.

Lemma total_size_union (X Y : gset positive) :
  X ## Y →
  MemoryInUse.total_size heap default_size (X ∪ Y)
  = MemoryInUse.total_size heap default_size X
    + MemoryInUse.total_size heap default_size Y.
Proof.
  intros Hdisj. unfold MemoryInUse.total_size.
  rewrite (set_fold_disj_union_strong (=)); [|solve_proper|intros; lia|exact Hdisj].
  set (f := λ obj acc, MemoryInUse.size_of heap default_size obj + acc).
  rewrite <- (Z.add_0_r (set_fold f 0 X)) at 1.
  by rewrite (set_fold_comm_acc f (λ acc, set_fold f 0 X + acc)) by (intros; unfold f; lia).
Qed.

Lemma sum_map_counted
    (f : positive → gset positive → option (Z * gset positive)) :
  (∀ obj seen total seen',
     f obj seen = Some (total, seen') →
     MemoryInUse.counted heap default_size [obj] seen seen' total) →
  ∀ items seen total seen',
    MemoryInUse.sum_map f items seen = Some (total, seen') →
    MemoryInUse.counted heap default_size items seen seen' total.
Proof.
  intros Hf. induction items as [|obj rest IH]; intros seen total seen'.
  - intros [= <- <-]. exists ∅. rewrite total_size_empty.
    repeat split; set_solver.
  - cbn [MemoryInUse.sum_map].
    destruct (f obj seen) as [[s seen1]|] eqn:Hobj; [|discriminate].
    destruct (MemoryInUse.sum_map f rest seen1) as [[t seen2]|] eqn:Hrest;
      [|discriminate].
    intros [= <- <-].
    destruct (Hf _ _ _ _ Hobj) as (new1 & -> & Hd1 & -> & Hroot1 & Hreach1 & Hclosed1).
    destruct (IH _ _ _ Hrest) as (new2 & -> & Hd2 & -> & Hroot2 & Hreach2 & Hclosed2).
    exists (new1 ∪ new2). split; [set_solver|]. split; [set_solver|].
    split; [rewrite total_size_union; [reflexivity|set_solver]|].
    split; [|split].
    + intros y Hy. apply elem_of_cons in Hy as [->|Hy].
      * apply elem_of_union_l, Hroot1. left.
      * by apply Hroot2.
    + intros x Hx. apply elem_of_union in Hx as [Hx|Hx].
      * destruct (Hreach1 x Hx) as (y & Hy & Hyx).
        apply list_elem_of_singleton in Hy as ->. exists obj. split; [left|done].
      * destruct (Hreach2 x Hx) as (y & Hy & Hyx). exists y. split; [by right|done].
    + intros x y Hx Hitem. apply elem_of_union in Hx as [Hx|Hx].
      * apply elem_of_union_l. by eapply Hclosed1.
      * by eapply Hclosed2.
Qed.

Lemma sizeof_counted (fuel : nat) :
  ∀ obj seen total seen',
    MemoryInUse.sizeof fuel heap default_size obj seen = Some (total, seen') →
    MemoryInUse.counted heap default_size [obj] seen seen' total.
Proof.
  induction fuel as [|fuel IH]; intros obj seen total seen'; [discriminate|].
  cbn [MemoryInUse.sizeof]. case_bool_decide as Hseen.
  - intros [= <- <-]. exists ∅. rewrite total_size_empty.
    repeat split; set_solver.
  - destruct (objects heap !! obj ≫= MemoryInUse.handled) as [items|] eqn:Hitems.
    + destruct (MemoryInUse.sum_map _ items _) as [[t seen2]|] eqn:Hsum;
        [|discriminate].
      intros [= <- <-].
      destruct (sum_map_counted _ IH _ _ _ _ Hsum)
        as (new & -> & Hd & -> & Hroots & Hreach & Hclosed).
      exists ({[ obj ]} ∪ new). split; [set_solver|]. split; [set_solver|].
      split.
      { rewrite total_size_union, total_size_singleton by set_solver.
        reflexivity. }
      split; [set_solver|]. split.
      * intros x Hx. exists obj. split; [left|].
        apply elem_of_union in Hx as [Hx|Hx].
        -- apply elem_of_singleton in Hx as ->. reflexivity.
        -- destruct (Hreach x Hx) as (y & Hy & Hyx).
           eapply rtc_l; [|exact Hyx]. by exists items.
      * intros x y Hx Hitem. apply elem_of_union in Hx as [Hx|Hx].
        -- apply elem_of_singleton in Hx as ->.
           destruct Hitem as (items' & Hitems' & Hy).
           rewrite Hitems in Hitems'. injection Hitems' as <-. by apply Hroots.
        -- by eapply Hclosed.
    + intros [= <- <-]. exists {[ obj ]}. split; [reflexivity|].
      split; [set_solver|]. split; [by rewrite total_size_singleton|].
      split; [set_solver|]. split.
      * intros x Hx. apply elem_of_singleton in Hx as ->.
        exists obj. split; [left|reflexivity].
      * intros x y Hx (items' & Hitems' & _).
        apply elem_of_singleton in Hx as ->. congruence.
Qed.

Lemma sum_map_returns
    (f : positive → gset positive → option (Z * gset positive))
    (seen0 : gset positive) :
  (∀ obj seen, seen0 ⊆ seen → is_Some (f obj seen)) →
  (∀ obj seen total seen', f obj seen = Some (total, seen') → seen ⊆ seen') →
  ∀ items seen, seen0 ⊆ seen → is_Some (MemoryInUse.sum_map f items seen).
Proof.
  intros Hsome Hgrow. induction items as [|obj rest IH]; intros seen Hseen;
    [by eexists|].
  cbn [MemoryInUse.sum_map].
  destruct (Hsome obj seen Hseen) as [[s seen1] Hobj]. rewrite Hobj.
  destruct (IH seen1) as [[t seen2] Hrest].
  { etrans; [exact Hseen|]. by eapply Hgrow. }
  rewrite Hrest. by eexists.
Qed.

Lemma sizeof_returns (fuel : nat) :
  ∀ obj seen,
    (size (dom (objects heap) ∖ seen) < fuel)%nat →
    is_Some (MemoryInUse.sizeof fuel heap default_size obj seen).
Proof.
  induction fuel as [|fuel IH]; intros obj seen Hfuel; [lia|].
  cbn [MemoryInUse.sizeof]. case_bool_decide as Hseen; [by eexists|].
  destruct (objects heap !! obj ≫= MemoryInUse.handled) as [items|] eqn:Hitems;
    [|by eexists].
  assert (Hdom : obj ∈ dom (objects heap)).
  { apply elem_of_dom. destruct (objects heap !! obj); [by eexists|discriminate]. }
  destruct (sum_map_returns (MemoryInUse.sizeof fuel heap default_size)
              (seen ∪ {[ obj ]})) with (items := items) (seen := seen ∪ {[ obj ]})
    as [[t seen2] Hsum].
  - intros obj' seen1 Hsub. apply IH.
    assert (Hstrict : dom (objects heap) ∖ seen1 ⊂ dom (objects heap) ∖ seen)
      by set_solver.
    apply subset_size in Hstrict. lia.
  - intros obj' seen1 total seen1' Hcall.
    destruct (sizeof_counted _ _ _ _ _ Hcall) as (new & -> & _). set_solver.
  - reflexivity.
  - rewrite Hsum. by eexists.
Qed.

End MemoryInUseFacts.

(** X12: MemoryInUse[] always returns, on any heap, shared or cyclic,
    once the fuel exceeds the number of container objects: -1 where
    sys.getsizeof(0) raises TypeError, and otherwise the sum, each object
    counted once, of the sizes of exactly the objects reached from the
    definitions through tuples, lists, dicts (keys and values), sets and
    frozensets; an object that reports no size counts as
    sys.getsizeof(0). *)
Theorem MemoryInUse_counts_reachable_once
    (heap : Heap) (definitions : positive) (fuel : nat) :
  (getsizeof_int0 heap = None →
   MemoryInUse.eval_0 fuel heap definitions = Some IntegerM1) ∧
  (∀ default_size,
     getsizeof_int0 heap = Some default_size →
     (size (objects heap) < fuel)%nat →
     ∃ visited : gset positive,
       (∀ x, x ∈ visited ↔ rtc (MemoryInUse.item_of heap) definitions x) ∧
       MemoryInUse.eval_0 fuel heap definitions
       = Some (Integer (MemoryInUse.total_size heap default_size visited))).
Proof.
  unfold MemoryInUse.eval_0. split; [by intros ->|].
  intros default_size -> Hfuel.
  destruct (sizeof_returns heap default_size fuel definitions ∅)
    as [[total visited] Hrun].
  { rewrite difference_empty_L, size_dom. exact Hfuel. }
  rewrite Hrun.
  destruct (sizeof_counted _ _ _ _ _ _ _ Hrun)
    as (new & -> & _ & -> & Hroot & Hreach & Hclosed).
  exists (∅ ∪ new). split; [|by rewrite union_empty_l_L].
  intros x.
  split.
  - intros Hx. destruct (Hreach x) as (y & Hy & Hyx); [set_solver|].
    by apply list_elem_of_singleton in Hy as ->.
  - revert x. apply rtc_ind_r.
    + apply Hroot. left.
    + intros y z _ Hyz Hy. eapply Hclosed; [|exact Hyz]. set_solver.
Qed.

End Facts.

(** * Concrete runs *)

(** The examples run with the example formatter and the key encoding of
    POSIX systems with UTF-8. *)
#[local] Existing Instance Examples.formatter.
#[local] Existing Instance posix_utf8.

(** ** The scenarios of the spec, run *)

Example Foo_21_is_42 :
  evaluate pmatch 3 Examples.store1 (Examples.Foo (Integer 21)) Examples.session
  = (Return (Integer 42, Stable), Examples.session).
Proof. reflexivity. Qed.

Example Foo_x_is_unchanged :
  evaluate pmatch 3 Examples.store1 (Examples.Foo (String "x")) Examples.session
  = (Return (Examples.Foo (String "x"), Stable), Examples.session).
Proof. reflexivity. Qed.

Example Environment_of_Integer_is_unchanged :
  dispatch pmatch builtins "System`Environment"
    (Expression (Symbol "System`Environment") [Integer 5]) Examples.session
  = (Return Unchanged, Examples.session).
Proof. vm_compute. reflexivity. Qed.

Example Environment_HOME_before_clear :
  (dispatch pmatch builtins "System`Environment"
     (Expression (Symbol "System`Environment") [String "HOME"]) Examples.session).1
  = Return (Rewritten (String "/root")).
Proof. vm_compute. reflexivity. Qed.

(** ** The theorems at concrete inputs *)

Lemma set_invalid_value_witness :
  MaxLengthIntStringConversion.eval_set (Integer 10) Examples.session
  = (Return (Integer 4300),
     mkEvaluation (runtime Examples.session)
       [mkMessage "$MaxLengthIntStringConversion" "inv"
          "10 is not 0 or an Integer value >640."]).
Proof.
  destruct (set_invalid_value_reports_and_keeps_value Examples.session)
    as (current & Hcurrent & Hset & _).
  rewrite MaxLength_evaluate_run in Hcurrent.
  injection Hcurrent as <-. exact Hset.
Defined.



Lemma intern_witness :
  let first := intern "System`$Failed" (intern_all systemsymbols empty_interner) in
  let later := intern_all ["Global`x"; "System`$Failed"] first.2 in
  first.1 = 64%positive ∧
  (intern "System`$Failed" later).1 = 64%positive ∧
  (intern "System`Rule" later).1 = 175%positive ∧
  "System`$Failed" ≠ "System`Rule".
Proof.
  intros first later.
  destruct (intern_same_identity_iff_same_name
              systemsymbols ["Global`x"; "System`$Failed"]
              "System`$Failed" "System`Rule") as [Hagain Hiff].
  fold first later in Hagain, Hiff.
  assert (Hfirst : first.1 = 64%positive) by (vm_compute; reflexivity).
  split; [exact Hfirst|]. split; [by rewrite Hagain|].
  split; [vm_compute; reflexivity|].
  intros Heq. apply Hiff in Heq. rewrite Hfirst in Heq.
  vm_compute in Heq. discriminate Heq.
Defined.

Lemma clear_witness :
  get_attributes "System`$MaxLengthIntStringConversion" builtins = {[ A_CONSTANT ]} ∧
  get_attributes "System`$MaxLengthIntStringConversion"
    (clear "System`$MaxLengthIntStringConversion" builtins) = ∅ ∧
  dispatch pmatch (clear "System`$MaxLengthIntStringConversion" builtins)
    "System`$MaxLengthIntStringConversion"
    (Expression (Symbol "System`Set")
       [Symbol "System`$MaxLengthIntStringConversion"; Integer 10])
    Examples.session
  = (Return Unchanged, Examples.session) ∧
  "System`Environment" ≠ "System`$MaxLengthIntStringConversion" ∧
  clear "System`$MaxLengthIntStringConversion" builtins !! "System`Environment"
  = builtins !! "System`Environment".
Proof.
  destruct (clear_resets_symbol pmatch builtins "System`$MaxLengthIntStringConversion")
    as (Hattrs & Hdispatch & _ & Hothers).
  assert (Hne : "System`Environment" ≠ "System`$MaxLengthIntStringConversion")
    by discriminate.
  split.
  { unfold get_attributes. rewrite get_or_create_definition, builtins_MaxLength.
    reflexivity. }
  split; [exact Hattrs|]. split; [apply Hdispatch|].
  split; [exact Hne|]. exact (Hothers _ Hne).
Defined.

Lemma applicable_store1 (e : Expr) :
  applicable Examples.store1 "Global`Foo" (Examples.Foo e)
  = [mkRule Examples.Foo_Integer Examples.doubles].
Proof.
  unfold Examples.store1. generalize Examples.doubles. intros h.
  vm_compute. reflexivity.
Qed.

Lemma no_match_witness :
  dispatch pmatch Examples.store1 "Global`Foo" (Examples.Foo (String "x"))
    Examples.session
  = (Return Unchanged, Examples.session) ∧
  evaluate pmatch 2 Examples.store1 (Examples.Foo (String "x")) Examples.session
  = (Return (Examples.Foo (String "x"), Stable), Examples.session).
Proof.
  assert (Hnone : ∀ r, r ∈ applicable Examples.store1 "Global`Foo"
                             (Examples.Foo (String "x")) →
                       pmatch (pattern r) (Examples.Foo (String "x")) = None).
  { intros r Hr. rewrite applicable_store1 in Hr.
    apply list_elem_of_singleton in Hr as ->. reflexivity. }
  destruct (no_match_is_unchanged pmatch Examples.store1
              (Examples.Foo (String "x")) Examples.session) as [Hdispatch Hevaluate].
  split.
  - apply Hdispatch, Hnone.
  - apply Hevaluate.
    + lia.
    + intros c Hc. cbn in Hc. by apply list_elem_of_singleton in Hc as ->.
    + intros symbol r Hsymbol. cbn in Hsymbol.
      apply list_elem_of_singleton in Hsymbol as ->. apply Hnone.
Defined.

Lemma first_match_witness :
  register pattern_position validate "Global`Foo" Examples.Foo_Integer
    Examples.doubles ∅ = Some Examples.store1 ∧
  register pattern_position validate "Global`Foo" Examples.Foo_any
    Examples.gives_up Examples.store1 = Some Examples.store2 ∧
  pmatch Examples.Foo_Integer (Examples.Foo (Integer 21)) = Some [("x", Integer 21)] ∧
  pmatch Examples.Foo_any (Examples.Foo (Integer 21)) = Some [("x", Integer 21)] ∧
  dispatch pmatch Examples.store2 "Global`Foo" (Examples.Foo (Integer 21))
    Examples.session
  = (Return (Rewritten (Integer 42)), Examples.session).
Proof.
  assert (H1 : register pattern_position validate "Global`Foo" Examples.Foo_Integer
                 Examples.doubles ∅ = Some Examples.store1) by reflexivity.
  assert (H2 : register pattern_position validate "Global`Foo" Examples.Foo_any
                 Examples.gives_up Examples.store1 = Some Examples.store2)
    by reflexivity.
  assert (Hm1 : pmatch Examples.Foo_Integer (Examples.Foo (Integer 21))
                = Some [("x", Integer 21)]) by reflexivity.
  assert (Hm2 : pmatch Examples.Foo_any (Examples.Foo (Integer 21))
                = Some [("x", Integer 21)]) by reflexivity.
  repeat (split; [assumption|]).
  destruct (first_registered_match_wins pmatch pattern_position validate
              ∅ Examples.store1 Examples.store1 Examples.store2
              "Global`Foo" Examples.Foo_Integer Examples.doubles
              Examples.Foo_any Examples.gives_up []
              (Examples.Foo (Integer 21)) [("x", Integer 21)] [("x", Integer 21)]
              Examples.session H1 eq_refl H2 eq_refl eq_refl Hm1 Hm2)
    as [_ Hfirst].
  rewrite Hfirst; [reflexivity|].
  intros r Hr. unfold applicable in Hr. rewrite lookup_empty in Hr.
  cbn in Hr. by apply elem_of_nil in Hr.
Defined.

Lemma SystemWordLength_witness :
  maxsize (runtime Examples.session) = 2 ^ 63 - 1 ∧
  SystemWordLength.evaluate 3 Examples.session
  = Some (Return (Integer 64), Examples.session) ∧
  2 ≤ maxsize (runtime Examples.interactive) ∧
  ∃ k : nat,
    maxsize (runtime Examples.interactive) > 2 ^ Z.shiftr 128 (Z.of_nat k) ∧
    SystemWordLength.evaluate (S k) Examples.interactive
    = Some (Return (Integer (2 * Z.shiftr 128 (Z.of_nat k))), Examples.interactive).
Proof.
  assert (H64 : maxsize (runtime Examples.session) = 2 ^ 63 - 1) by reflexivity.
  assert (H2 : 2 ≤ maxsize (runtime Examples.interactive)) by (vm_compute; discriminate).
  split; [exact H64|]. split.
  - apply (proj1 (SystemWordLength_value Examples.session) H64). lia.
  - split; [exact H2|].
    destruct (proj2 (SystemWordLength_value Examples.interactive) H2)
      as (k & _ & Hgt & _ & Hrun).
    exists k. split; [exact Hgt|]. apply Hrun. lia.
Defined.

Lemma ScriptCommandLine_witness :
  ScriptCommandLine.evaluate Examples.session
  = (Return (ListExpression [String "script.m"; String "a"; String "b"]),
     Examples.session) ∧
  ScriptCommandLine.evaluate Examples.interactive
  = (Return (ListExpression []), Examples.interactive) ∧
  ScriptCommandLine.evaluate Examples.bare_separator
  = (Return (ListExpression [String ""; String "a"]), Examples.bare_separator).
Proof.
  split; [|split].
  - destruct (ScriptCommandLine_value Examples.session) as [_ Hsep].
    destruct (Hsep 2%nat) as [Hscript _]; [reflexivity| |].
    { intros [|[|j]] Hj; [discriminate..|lia]. }
    destruct Hscript as (script & Hlookup & Hrun); [lia|].
    injection Hlookup as <-. exact Hrun.
  - apply (proj1 (ScriptCommandLine_value Examples.interactive)).
    intros Hin. apply list_elem_of_singleton in Hin. discriminate Hin.
  - destruct (ScriptCommandLine_value Examples.bare_separator) as [_ Hsep].
    destruct (Hsep 0%nat) as [_ Hzero]; [reflexivity|intros j Hj; lia|].
    by apply Hzero.
Defined.

(** ** The further theorems at concrete inputs *)

Lemma eval_set_accepts_witness :
  ∃ ev',
    MaxLengthIntStringConversion.eval_set (Integer 650) Examples.session
    = (Return (Integer 650), ev') ∧
    int_max_str_digits (runtime ev') = Some 650 ∧
    out ev' = out Examples.session ∧
    MaxLengthIntStringConversion.evaluate ev' = (Return (Integer 650), ev').
Proof.
  apply (eval_set_accepts_valid_limit Examples.session 4300 650);
    [reflexivity|lia].
Defined.

Lemma eval_set_rejects_witness :
  MaxLengthIntStringConversion.eval_set (Integer (-5)) Examples.session =
    (Return (Integer 4300),
     mkEvaluation (runtime Examples.session)
       [mkMessage "$MaxLengthIntStringConversion" "inv"
          "-5 is not 0 or an Integer value >640."]) ∧
  MaxLengthIntStringConversion.eval_set (String "many") Examples.session =
    (Return (Integer 4300),
     mkEvaluation (runtime Examples.session)
       [mkMessage "$MaxLengthIntStringConversion" "inv"
          "many is not 0 or an Integer value >640."]) ∧
  MaxLengthIntStringConversion.eval_set (Symbol "Global`x") Examples.session =
    (Return (Integer 4300),
     mkEvaluation (runtime Examples.session)
       [mkMessage "$MaxLengthIntStringConversion" "inv"
          (format_expression (Symbol "Global`x")
           +:+ " is not 0 or an Integer value >640.")]).
Proof.
  split; [|split].
  - apply (eval_set_rejects_invalid_limit Examples.session 4300 (Integer (-5)));
      [reflexivity|lia].
  - apply (eval_set_rejects_invalid_limit Examples.session 4300 (String "many"));
      [reflexivity|exact I].
  - exact (eval_set_rejects_invalid_limit Examples.session 4300
             (Symbol "Global`x") eq_refl I).
Defined.

Lemma eval_set_without_limit_witness :
  ∃ ev',
    MaxLengthIntStringConversion.eval_set (Integer 700) Examples.interactive
    = (Return Integer0, ev') ∧
    ev' = Examples.interactive.
Proof.
  destruct (eval_set_without_limit_returns_zero Examples.interactive 700 eq_refl)
    as (ev' & Hrun & _ & _ & Hsilent).
  exists ev'. split; [exact Hrun|]. apply Hsilent. lia.
Defined.

Lemma eval_set_raises_witness :
  MaxLengthIntStringConversion.eval_set (Integer (2 ^ 40)) Examples.session
  = (Raise OverflowError, Examples.session) ∧
  ∃ v, Integer (2 ^ 40) = Integer v ∧ (v < -2147483648 ∨ 2147483647 < v).
Proof.
  assert (Hrun : MaxLengthIntStringConversion.eval_set (Integer (2 ^ 40))
                   Examples.session = (Raise OverflowError, Examples.session))
    by (vm_compute; reflexivity).
  split; [exact Hrun|].
  exact (proj2 (proj2 (proj2 (eval_set_raises_only_OverflowError _ _ _ _ Hrun)))).
Defined.

Lemma eval_set_returns_value_witness :
  let ev' := mkEvaluation
               (mkRuntime (Some 0) (2 ^ 63 - 1) "linux"
                  ["mathics"; "script.m"; "--"; "a"; "b"] {[ "HOME" := "/root" ]})
               [] in
  MaxLengthIntStringConversion.eval_set (Integer 0) Examples.session
  = (Return (Integer 0), ev') ∧
  MaxLengthIntStringConversion.evaluate ev' = (Return (Integer 0), ev').
Proof.
  intros ev'.
  assert (Hrun : MaxLengthIntStringConversion.eval_set (Integer 0) Examples.session
                 = (Return (Integer 0), ev')) by (vm_compute; reflexivity).
  split; [exact Hrun|].
  exact (eval_set_returns_value_afterwards _ _ _ _ Hrun).
Defined.

Lemma eval_set_frame_witness :
  argv (runtime Examples.session) = ["mathics"; "script.m"; "--"; "a"; "b"] ∧
  ∀ res ev',
    MaxLengthIntStringConversion.eval_set (Integer 10) Examples.session = (res, ev') →
    argv (runtime ev') = ["mathics"; "script.m"; "--"; "a"; "b"] ∧
    int_max_str_digits (runtime ev') = Some 4300.
Proof.
  split; [reflexivity|]. intros res ev' Hrun.
  destruct (eval_set_frame_and_limit_invariant _ _ _ _ Hrun)
    as (_ & _ & Hargv & _ & _ & _ & _).
  split; [exact Hargv|].
  rewrite eval_set_10_run in Hrun. by injection Hrun as <- <-.
Defined.


Lemma SystemWordLength_diverges_witness :
  maxsize (runtime Examples.maxsize_one) ≤ 1 ∧
  SystemWordLength.evaluate 1000 Examples.maxsize_one = None.
Proof.
  assert (Hmax : maxsize (runtime Examples.maxsize_one) ≤ 1) by (vm_compute; discriminate).
  split; [exact Hmax|].
  exact (SystemWordLength_diverges_below_two Examples.maxsize_one 1000 Hmax).
Defined.

Lemma SystemWordLength_brackets_witness :
  SystemWordLength.evaluate 9 Examples.maxsize_two
  = Some (Return (Integer 0), Examples.maxsize_two) ∧
  3 ≤ maxsize (runtime Examples.interactive) ∧
  ∃ n : nat,
    (1 ≤ n ≤ 8)%nat ∧
    (∀ fuel, (9 ≤ fuel)%nat →
       SystemWordLength.evaluate fuel Examples.interactive
       = Some (Return (Integer (2 ^ Z.of_nat n)), Examples.interactive)) ∧
    2 ^ (2 ^ (Z.of_nat n - 1)) < maxsize (runtime Examples.interactive) ∧
    ((n < 8)%nat → maxsize (runtime Examples.interactive) ≤ 2 ^ (2 ^ Z.of_nat n)).
Proof.
  assert (Hmax : 3 ≤ maxsize (runtime Examples.interactive))
    by (vm_compute; discriminate).
  split; [|split].
  - apply (proj1 (SystemWordLength_brackets_maxsize Examples.maxsize_two));
      [reflexivity|lia].
  - exact Hmax.
  - exact (proj2 (SystemWordLength_brackets_maxsize Examples.interactive) Hmax).
Defined.

Lemma Version_witness :
  Version.evaluate Examples.version_string Examples.session
  = (Return (String "Mathics 6.0.0 on CPython 3.11.4"), Examples.session).
Proof.
  destruct (Version_is_one_line Examples.version_string Examples.session)
    as (text & Hrun & _).
  rewrite Hrun. vm_compute in Hrun. by injection Hrun as <-.
Defined.

Lemma MemoryInUse_witness :
  MemoryInUse.eval_0 5 Examples.heap 1 = Some (Integer 88) ∧
  ∃ visited : gset positive,
    (∀ x, x ∈ visited ↔ rtc (MemoryInUse.item_of Examples.heap) 1%positive x) ∧
    MemoryInUse.eval_0 5 Examples.heap 1
    = Some (Integer (MemoryInUse.total_size Examples.heap 28 visited)).
Proof.
  split; [vm_compute; reflexivity|].
  apply (proj2 (MemoryInUse_counts_reachable_once Examples.heap 1 5) 28);
    [reflexivity|vm_compute; lia].
Defined.
